(** * A shallow embedding of the code-review agent's tool set (src/tools.ts)

    The tools are modelled as Rocq functions over
    - JavaScript strings as [string] (one [ascii] per code unit; every
      operation used by the tools is generic in the code-unit type),
    - JavaScript numbers that count things as [Z], and a number-typed field
      as [Num] where the value may be missing at run time,
    - the outside world (the simple-git handle, the file system, the clock)
      as explicit records that are passed in and, where written, passed out,
    - thrown values as [Thrown], and fallible calls as [Result]. *)

From Stdlib Require Import List String Ascii ZArith Lia Bool Arith.
From Stdlib Require Import Permutation Sorted DecimalString.
Import ListNotations.

Open Scope string_scope.
Open Scope Z_scope.

(* ================================================================== *)
(** * JavaScript built-ins used by the tools *)
(* ================================================================== *)

Module JS.

(** [String.prototype.startsWith]. *)
Definition startsWith (s sub : string) : bool := String.prefix sub s.

(** [String.prototype.includes]: [sub] occurs at some offset of [s]. *)
Fixpoint includes (s sub : string) : bool :=
  String.prefix sub s ||
  match s with
  | EmptyString => false
  | String _ s' => includes s' sub
  end.

(** [String.prototype.endsWith]. *)
Definition endsWith (s sub : string) : bool :=
  let n := String.length s in
  let m := String.length sub in
  (m <=? n)%nat && String.eqb (String.substring (n - m) m s) sub.

(** [s.substring(0, n)] for a non-negative [n]. *)
Definition substring0 (s : string) (n : Z) : string :=
  String.substring 0 (Z.to_nat n) s.

(** [String.prototype.slice] on a list of code units, with JavaScript's
    treatment of negative and out-of-range indices. *)
Definition clampIndex (len k : Z) : Z :=
  if k <? 0 then Z.max (len + k) 0 else Z.min k len.

Definition slice {A : Type} (l : list A) (from to : Z) : list A :=
  let len := Z.of_nat (List.length l) in
  let a := clampIndex len from in
  let b := clampIndex len to in
  firstn (Z.to_nat (b - a)) (skipn (Z.to_nat a) l).

(** Number-to-string conversion of an integral number, as a template
    literal performs it. *)
Definition numToString (n : Z) : string :=
  NilEmpty.string_of_int (Z.to_int n).

(** The run-time value of a field typed [number]: an integral number, [NaN],
    or [undefined] when the object has no such field. *)
Inductive Num : Type :=
| Finite (z : Z)
| NaN
| Undefined.

Coercion Finite : Z >-> Num.

(** [a + b] and [a - b] on such values: [undefined] converts to [NaN], and
    [NaN] is absorbing. *)
Definition numAdd (a b : Num) : Num :=
  match a, b with
  | Finite x, Finite y => Finite (x + y)
  | _, _ => NaN
  end.

Definition numSub (a b : Num) : Num :=
  match a, b with
  | Finite x, Finite y => Finite (x - y)
  | _, _ => NaN
  end.

(** The string a template literal makes of such a value. *)
Definition valueToString (v : Num) : string :=
  match v with
  | Finite z => numToString z
  | NaN => "NaN"
  | Undefined => "undefined"
  end.

(** An optional field takes such a value as it is; [undefined] is an absent
    field, and [NaN] is as falsy as an absent one where [|| 0] follows. *)
Definition asOptional (v : Num) : option Z :=
  match v with
  | Finite z => Some z
  | _ => None
  end.

(** The number [Array.prototype.sort] makes of a comparator's result: [NaN]
    counts as [+0]. *)
Definition sortOrder (v : Num) : Z :=
  match v with
  | Finite z => z
  | _ => 0
  end.

(** [Array.prototype.join]. *)
Definition join (sep : string) (l : list string) : string :=
  String.concat sep l.

(** [x || y] on strings: the empty string is the only falsy string. *)
Definition orElse (x y : string) : string :=
  match x with
  | EmptyString => y
  | _ => x
  end.

(** Truthiness of a string, as a conditional sees it. *)
Definition truthy (x : string) : bool :=
  match x with
  | EmptyString => false
  | _ => true
  end.

(** A [Set] of strings: its elements in insertion order, without
    repetition. *)
Definition setAdd (s : list string) (x : string) : list string :=
  if existsb (String.eqb x) s then s else s ++ [x].

Definition newSet (xs : list string) : list string :=
  fold_left setAdd xs [].

(** [Array.prototype.sort] with a comparator.  ECMAScript requires the sort
    to be stable; for a comparator that is a consistent ordering the result
    is then determined, and a stable insertion sort computes it: an element
    stays in front of a later one unless the comparator is positive.  For a
    comparator that is not consistent (one that answers [NaN] for some pairs
    only) the order is left to the engine; the insertion sort then gives the
    order of an engine that keeps a list in which no neighbour compares
    positive as it is. *)
Fixpoint insertBy {A : Type} (cmp : A -> A -> Num) (x : A) (l : list A) : list A :=
  match l with
  | [] => [x]
  | y :: l' => if sortOrder (cmp x y) <=? 0 then x :: l else y :: insertBy cmp x l'
  end.

Definition sort {A : Type} (cmp : A -> A -> Num) (l : list A) : list A :=
  fold_right (insertBy cmp) [] l.

(** A thrown value: an [Error] object with its message, or anything else. *)
Inductive Thrown : Type :=
| ErrorObject (message : string)
| OtherValue.

(** The outcome of a call that may throw (or of an awaited promise that may
    reject). *)
Inductive Result (A : Type) : Type :=
| Ok (a : A)
| Throw (e : Thrown).
Arguments Ok {A} a.
Arguments Throw {A} e.

(** [error instanceof Error ? error.message : 'Unknown error']. *)
Definition messageOf (e : Thrown) : string :=
  match e with
  | ErrorObject m => m
  | OtherValue => "Unknown error"
  end.

End JS.

(* ================================================================== *)
(** * The POSIX [path] module *)
(* ================================================================== *)

Module Path.

Definition isSlash (c : ascii) : bool := Ascii.eqb c "/".
Definition isDot (c : ascii) : bool := Ascii.eqb c ".".

(** ** [path.extname]

    The scan runs from the last code unit to the first; [cs] holds the code
    units still to visit, so the index of its head is the length of its
    tail.  A result that stops early models [break]. *)
Record ExtScan : Type := mkExtScan {
  startDot : Z;
  startPart : Z;
  endIdx : Z;
  matchedSlash : bool;
  preDotState : Z
}.

Definition extInit : ExtScan := mkExtScan (-1) 0 (-1) true 0.

(** The loop body for a code unit [code] at index [i] that is not a path
    separator. *)
Definition extStep (i : Z) (code : ascii) (st : ExtScan) : ExtScan :=
  let st1 :=
    if endIdx st =? -1
    then mkExtScan (startDot st) (startPart st) (i + 1) false (preDotState st)
    else st in
  if isDot code then
    if startDot st1 =? -1
    then mkExtScan i (startPart st1) (endIdx st1) (matchedSlash st1) (preDotState st1)
    else if negb (preDotState st1 =? 1)
    then mkExtScan (startDot st1) (startPart st1) (endIdx st1) (matchedSlash st1) 1
    else st1
  else if negb (startDot st1 =? -1)
  then mkExtScan (startDot st1) (startPart st1) (endIdx st1) (matchedSlash st1) (-1)
  else st1.

Fixpoint extnameLoop (cs : list ascii) (st : ExtScan) : ExtScan :=
  match cs with
  | [] => st
  | code :: rest =>
    let i := Z.of_nat (List.length rest) in
    if isSlash code then
      if negb (matchedSlash st)
      then mkExtScan (startDot st) (i + 1) (endIdx st) (matchedSlash st) (preDotState st)
      else extnameLoop rest st
    else extnameLoop rest (extStep i code st)
  end.

Definition extnameChars (p : list ascii) : list ascii :=
  let st := extnameLoop (rev p) extInit in
  if (startDot st =? -1)
     || (endIdx st =? -1)
     || (preDotState st =? 0)
     || ((preDotState st =? 1)
         && (startDot st =? endIdx st - 1)
         && (startDot st =? startPart st + 1))
  then []
  else JS.slice p (startDot st) (endIdx st).

Definition extname (p : string) : string :=
  string_of_list_ascii (extnameChars (list_ascii_of_string p)).

(** ** [path.basename] with a suffix argument *)
Record BaseScan : Type := mkBaseScan {
  bStart : Z;
  bEnd : Z;
  bMatchedSlash : bool;
  extIdx : Z;
  firstNonSlashEnd : Z
}.

(** The loop body for a code unit [code] at index [i] that is not a path
    separator. *)
Definition basenameSuffixStep (suffix : list ascii) (i : Z) (code : ascii)
           (st : BaseScan) : BaseScan :=
  let st1 :=
    if firstNonSlashEnd st =? -1
    then mkBaseScan (bStart st) (bEnd st) false (extIdx st) (i + 1)
    else st in
  if extIdx st1 >=? 0 then
    if Ascii.eqb code (nth (Z.to_nat (extIdx st1)) suffix zero) then
      let e := extIdx st1 - 1 in
      if e =? -1
      then mkBaseScan (bStart st1) i (bMatchedSlash st1) e (firstNonSlashEnd st1)
      else mkBaseScan (bStart st1) (bEnd st1) (bMatchedSlash st1) e (firstNonSlashEnd st1)
    else
      mkBaseScan (bStart st1) (firstNonSlashEnd st1) (bMatchedSlash st1) (-1)
                 (firstNonSlashEnd st1)
  else st1.

Fixpoint basenameSuffixLoop (suffix cs : list ascii) (st : BaseScan) : BaseScan :=
  match cs with
  | [] => st
  | code :: rest =>
    let i := Z.of_nat (List.length rest) in
    if isSlash code then
      if negb (bMatchedSlash st)
      then mkBaseScan (i + 1) (bEnd st) (bMatchedSlash st) (extIdx st) (firstNonSlashEnd st)
      else basenameSuffixLoop suffix rest st
    else basenameSuffixLoop suffix rest (basenameSuffixStep suffix i code st)
  end.

(** The loop of [basename] without a usable suffix; it only tracks
    [start], [end] and [matchedSlash]. *)
Fixpoint basenamePlainLoop (cs : list ascii) (st : BaseScan) : BaseScan :=
  match cs with
  | [] => st
  | code :: rest =>
    let i := Z.of_nat (List.length rest) in
    if isSlash code then
      if negb (bMatchedSlash st)
      then mkBaseScan (i + 1) (bEnd st) (bMatchedSlash st) (extIdx st) (firstNonSlashEnd st)
      else basenamePlainLoop rest st
    else if bEnd st =? -1
    then basenamePlainLoop rest
           (mkBaseScan (bStart st) (i + 1) false (extIdx st) (firstNonSlashEnd st))
    else basenamePlainLoop rest st
  end.

Definition eqChars (a b : list ascii) : bool :=
  String.eqb (string_of_list_ascii a) (string_of_list_ascii b).

Definition basenameChars (p suffix : list ascii) : list ascii :=
  let plen := Z.of_nat (List.length p) in
  let slen := Z.of_nat (List.length suffix) in
  if (0 <? slen) && (slen <=? plen) then
    if eqChars suffix p then []
    else
      let st := basenameSuffixLoop suffix (rev p)
                  (mkBaseScan 0 (-1) true (slen - 1) (-1)) in
      let e :=
        if bStart st =? bEnd st then firstNonSlashEnd st
        else if bEnd st =? -1 then plen
        else bEnd st in
      JS.slice p (bStart st) e
  else
    let st := basenamePlainLoop (rev p) (mkBaseScan 0 (-1) true (-1) (-1)) in
    if bEnd st =? -1 then []
    else JS.slice p (bStart st) (bEnd st).

Definition basename (p suffix : string) : string :=
  string_of_list_ascii
    (basenameChars (list_ascii_of_string p) (list_ascii_of_string suffix)).

(** ** [path.dirname] *)
Fixpoint dirnameLoop (cs : list ascii) (matched : bool) : Z :=
  match cs with
  | [] => -1
  | code :: rest =>
    let i := Z.of_nat (List.length rest) in
    if i <? 1 then -1
    else if isSlash code then
      if negb matched then i else dirnameLoop rest matched
    else dirnameLoop rest false
  end.

Definition dirnameChars (p : list ascii) : list ascii :=
  match p with
  | [] => ["."%char]
  | c0 :: _ =>
    let hasRoot := isSlash c0 in
    let e := dirnameLoop (rev p) true in
    if e =? -1 then (if hasRoot then ["/"%char] else ["."%char])
    else if hasRoot && (e =? 1) then ["/"%char; "/"%char]
    else JS.slice p 0 e
  end.

Definition dirname (p : string) : string :=
  string_of_list_ascii (dirnameChars (list_ascii_of_string p)).

(** ** [path.join] of two arguments, followed by [path.normalize]

    Normalisation is modelled on path segments: empty and [.] segments
    vanish, a [..] segment removes the segment before it unless there is
    none or it is itself [..] (then it is kept for a relative path and
    dropped for an absolute one). *)
Fixpoint splitSlash (cs cur : list ascii) : list (list ascii) :=
  match cs with
  | [] => [rev cur]
  | c :: rest =>
    if isSlash c then rev cur :: splitSlash rest [] else splitSlash rest (c :: cur)
  end.

Definition isDotDot (seg : list ascii) : bool := eqChars seg [".";"."]%char.

(** [stack] holds the kept segments, the last one first. *)
Definition pushSegment (allowAboveRoot : bool) (stack : list (list ascii))
           (seg : list ascii) : list (list ascii) :=
  if eqChars seg [] || eqChars seg ["."%char] then stack
  else if isDotDot seg then
    match stack with
    | top :: below =>
      if isDotDot top then (if allowAboveRoot then seg :: stack else stack)
      else below
    | [] => if allowAboveRoot then [seg] else []
    end
  else seg :: stack.

Definition normalizeString (p : list ascii) (allowAboveRoot : bool) : string :=
  JS.join "/"
    (map string_of_list_ascii
         (rev (fold_left (pushSegment allowAboveRoot) (splitSlash p []) []))).

Definition normalize (p : string) : string :=
  let cs := list_ascii_of_string p in
  match cs with
  | [] => "."
  | c0 :: _ =>
    let isAbsolute := isSlash c0 in
    let trailingSeparator := isSlash (last cs zero) in
    let res := normalizeString cs (negb isAbsolute) in
    match res with
    | EmptyString =>
      if isAbsolute then "/" else if trailingSeparator then "./" else "."
    | _ =>
      let res' := if trailingSeparator then res ++ "/" else res in
      if isAbsolute then "/" ++ res' else res'
    end
  end.

Definition join (a b : string) : string :=
  let joined :=
    match a, b with
    | EmptyString, _ => b
    | _, EmptyString => a
    | _, _ => a ++ "/" ++ b
    end in
  match joined with
  | EmptyString => "."
  | _ => normalize joined
  end.

End Path.

(* ================================================================== *)
(** * The outside world *)
(* ================================================================== *)

Module World.
Import JS.

(** One entry of [summary.files], read through the fields the tools name
    ([GitFileStatus]).  The entry of a text file carries the three counts;
    the entry of a binary file carries none of them, so the fields read
    [undefined] there. *)
Record GitFileStatus : Type := mkGitFileStatus {
  gsFile : string;
  gsChanges : Num;
  insertions : Num;
  deletions : Num
}.

(** The handle returned by [simpleGit(rootDir)], reduced to the three
    queries the change collector awaits.  [diffSummary] gives the [files]
    of the summary; [gitDiff] receives the argument array of [git.diff]. *)
Record SimpleGit : Type := mkSimpleGit {
  checkIsRepo : Result bool;
  diffSummary : Result (list GitFileStatus);
  gitDiff : list string -> Result string
}.

(** A [console.warn] call: its text and the value logged after it. *)
Record Warning : Type := mkWarning {
  warnText : string;
  warnValue : Thrown
}.

(** What goes wrong at a path for reasons outside the tree of names (rights,
    the device): the operation is refused before it has any effect, or a
    file can be opened and emptied but writing stops after [written] code
    units. *)
Inductive Fault : Type :=
| Refused (e : Thrown)
| WriteCut (e : Thrown) (written : nat).

(** The file system as the report writer sees it: the directories that
    exist, the regular files with their contents (the entry nearest the
    head is the current one) and the faults of the paths.  Paths are
    compared as written. *)
Record FileSystem : Type := mkDisk {
  directories : list string;
  regularFiles : list (string * string);
  fault : string -> option Fault
}.

(** A file system without faults. *)
Definition mkFileSystem (dirs : list string) (files : list (string * string))
  : FileSystem :=
  mkDisk dirs files (fun _ => None).

Definition isDirectory (fs : FileSystem) (p : string) : bool :=
  existsb (String.eqb p) (directories fs).

Fixpoint lookupFile (fl : list (string * string)) (p : string) : option string :=
  match fl with
  | [] => None
  | (q, data) :: rest => if String.eqb p q then Some data else lookupFile rest p
  end.

Definition readFile (fs : FileSystem) (p : string) : option string :=
  lookupFile (regularFiles fs) p.

Definition isRegularFile (fs : FileSystem) (p : string) : bool :=
  match readFile fs p with
  | Some _ => true
  | None => false
  end.

(** The directories above [p], the nearest first, up to the one that is its
    own parent. *)
Fixpoint ancestorsFrom (fuel : nat) (p : string) : list string :=
  match fuel with
  | O => []
  | S fuel' =>
    let d := Path.dirname p in
    if String.eqb d p then [] else d :: ancestorsFrom fuel' d
  end.

Definition ancestors (p : string) : list string :=
  ancestorsFrom (S (String.length p)) p.

(** [fs.access(p)]: rejects when nothing exists at [p]. *)
Definition access (fs : FileSystem) (p : string) : Result unit :=
  if isDirectory fs p || isRegularFile fs p then Ok tt
  else Throw (ErrorObject ("ENOENT: no such file or directory, access '" ++ p ++ "'")).

(** The first refusal among the directories that would have to be made. *)
Fixpoint firstRefusal (fs : FileSystem) (dirs : list string) : option Thrown :=
  match dirs with
  | [] => None
  | d :: rest =>
    match fault fs d with
    | Some (Refused e) => Some e
    | _ => firstRefusal fs rest
    end
  end.

(** [fs.mkdir(p, { recursive: true })]: makes [p] and the directories above
    it that are missing.  It rejects, without having made anything, when [p]
    is a regular file, when a regular file stands above [p], or when making
    one of the missing directories is refused. *)
Definition mkdirRecursive (fs : FileSystem) (p : string) : Result FileSystem :=
  if isRegularFile fs p
  then Throw (ErrorObject ("EEXIST: file already exists, mkdir '" ++ p ++ "'"))
  else if existsb (isRegularFile fs) (ancestors p)
  then Throw (ErrorObject ("ENOTDIR: not a directory, mkdir '" ++ p ++ "'"))
  else
    let missing := filter (fun d => negb (isDirectory fs d)) (p :: ancestors p) in
    match firstRefusal fs missing with
    | Some e => Throw e
    | None => Ok (mkDisk (missing ++ directories fs) (regularFiles fs) (fault fs))
    end.

(** [fs.writeFile(p, data, 'utf-8')]: creates or replaces the file.  It
    rejects with the file system as it was when [p] is a directory, when its
    parent directory does not exist (a regular file standing above [p], or
    nothing), or when opening the file is refused; and it rejects with the
    file emptied and partly written when writing is cut. *)
Definition writeFile (fs : FileSystem) (p data : string) : FileSystem * Result unit :=
  if isDirectory fs p
  then (fs, Throw (ErrorObject ("EISDIR: illegal operation on a directory, open '"
                                  ++ p ++ "'")))
  else if isDirectory fs (Path.dirname p)
  then
    match fault fs p with
    | Some (Refused e) => (fs, Throw e)
    | Some (WriteCut e written) =>
      (mkDisk (directories fs)
              ((p, String.substring 0 written data) :: regularFiles fs) (fault fs),
       Throw e)
    | None =>
      (mkDisk (directories fs) ((p, data) :: regularFiles fs) (fault fs), Ok tt)
    end
  else if existsb (isRegularFile fs) (ancestors p)
  then (fs, Throw (ErrorObject ("ENOTDIR: not a directory, open '" ++ p ++ "'")))
  else (fs, Throw (ErrorObject ("ENOENT: no such file or directory, open '" ++ p ++ "'"))).

(** What [new Date()] renders to at the time of the call. *)
Record Clock : Type := mkClock {
  toISOString : string;
  toLocaleString : string
}.

(** [s.split(sep)[0]] for a one-unit separator. *)
Fixpoint splitHead (sep : ascii) (s : string) : string :=
  match s with
  | EmptyString => EmptyString
  | String c s' => if Ascii.eqb c sep then EmptyString else String c (splitHead sep s')
  end.

End World.

(* ================================================================== *)
(** * src/tools.ts *)
(* ================================================================== *)

Module Tools.
Import JS World.

(** ** Constants *)
Definition EXCLUDED_FILES : list string :=
  newSet ["dist"; "bun.lock"; "node_modules"; ".git"; "coverage"].

Record Options : Type := mkOptions {
  maxConcurrentDiffs : Z;
  maxCommitMessageLength : Z
}.

Definition DEFAULT_OPTIONS : Options := mkOptions 10 72.

(** ** Types *)
Record FileDiff : Type := mkFileDiff {
  file : string;
  diff : string;
  changes : Num
}.

Inductive CommitType : Type :=
| CTfeat | CTfix | CTdocs | CTstyle | CTrefactor | CTtest | CTchore.

Definition commitTypeName (t : CommitType) : string :=
  match t with
  | CTfeat => "feat"
  | CTfix => "fix"
  | CTdocs => "docs"
  | CTstyle => "style"
  | CTrefactor => "refactor"
  | CTtest => "test"
  | CTchore => "chore"
  end.

(** An element of [commitMessageSchema.changes]. *)
Record ChangeInput : Type := mkChangeInput {
  inFile : string;
  inChanges : option Z;
  inDiff : option string
}.

Record FileChangeParams : Type := mkFileChangeParams {
  fcRootDir : string;
  fcExcludePatterns : option (list string)
}.

Record CommitMessageParams : Type := mkCommitMessageParams {
  cmChanges : list ChangeInput;
  cmCommitType : option CommitType;
  cmScope : option string
}.

Record MarkdownReportParams : Type := mkMarkdownReportParams {
  reviewContent : string;
  outputPath : option string;
  fileName : option string
}.

Record CodeReviewParams : Type := mkCodeReviewParams {
  crRootDir : string;
  crExcludePatterns : option (list string);
  outputReport : option bool
}.

Record CodeReviewResult : Type := mkCodeReviewResult {
  resChanges : list FileDiff;
  summary : string;
  suggestions : list string;
  commitMessage : option string;
  reportPath : option string
}.

(** A destructured parameter with a default value. *)
Definition withDefault {A : Type} (o : option A) (d : A) : A :=
  match o with
  | Some a => a
  | None => d
  end.

(** [array.length] as a number. *)
Definition len {A : Type} (l : list A) : Z := Z.of_nat (List.length l).
Definition strlen (s : string) : Z := Z.of_nat (String.length s).

(** ** Utility functions *)
Definition shouldExcludeFile (filePath : string) (additionalExcludes : list string) : bool :=
  let allExcludes := newSet (EXCLUDED_FILES ++ additionalExcludes) in
  existsb (fun exclude => includes filePath exclude || startsWith filePath exclude)
          allExcludes.

Definition ensureDirectoryExists (fs : FileSystem) (filePath : string) : Result FileSystem :=
  let dir := Path.dirname filePath in
  match access fs dir with
  | Ok _ => Ok fs
  | Throw _ => mkdirRecursive fs dir
  end.

(** ** Helper functions *)
Definition detectCommitType (changes : list FileDiff) : string :=
  let fileExtensions := map (fun change => Path.extname (file change)) changes in
  if existsb (fun ext => existsb (fun testExt => includes ext testExt) [".test."; ".spec."])
             fileExtensions
  then "test"
  else if existsb (fun change => includes (file change) "README"
                                 || includes (file change) "docs/") changes
  then "docs"
  else if existsb (fun change => includes (file change) "fix"
                                 || includes (file change) "bug") changes
  then "fix"
  else "feat".

Definition isMainFile (change : FileDiff) : bool :=
  negb (includes (file change) "test")
  && negb (includes (file change) "spec")
  && negb (includes (file change) "README").

Definition generateMessageBody (changes : list FileDiff) : string :=
  let mainFiles := filter isMainFile changes in
  match mainFiles with
  | [] => "update documentation and tests"
  | primaryFile :: _ =>
    let fileName :=
      Path.basename (file primaryFile) (Path.extname (file primaryFile)) in
    "update " ++ fileName ++ " with " ++ numToString (len changes)
      ++ " file" ++ (if len changes >? 1 then "s" else "") ++ " changed"
  end.

Definition generateReviewSummary (changes : list FileDiff) : string :=
  let totalChanges :=
    fold_left (fun sum change => numAdd sum (Tools.changes change)) changes (Finite 0) in
  let fileTypes := newSet (map (fun change => Path.extname (file change)) changes) in
  "Reviewed " ++ numToString (len changes) ++ " files with " ++ valueToString totalChanges
    ++ " total changes. File types: " ++ orElse (join ", " fileTypes) "various".

Definition SUGGEST_TYPES : string :=
  "Consider adding TypeScript type annotations if missing".
Definition SUGGEST_COVERAGE : string :=
  "Verify test coverage for the implemented changes".
Definition SUGGEST_SPLIT : string :=
  "Consider breaking this into smaller, focused commits".
Definition SUGGEST_FALLBACK : string :=
  "Changes look good. Consider adding comments for complex logic".

(** [suggestions.push(s)] when [cond] holds. *)
Definition pushIf (cond : bool) (s : string) (suggestions : list string) : list string :=
  if cond then suggestions ++ [s] else suggestions.

Definition generateSuggestions (changes : list FileDiff) : list string :=
  let suggestions := [] in
  let suggestions :=
    pushIf (existsb (fun change => endsWith (file change) ".ts"
                                   || endsWith (file change) ".tsx") changes)
           SUGGEST_TYPES suggestions in
  let suggestions :=
    pushIf (existsb (fun change => includes (file change) "test"
                                   || includes (file change) "spec") changes)
           SUGGEST_COVERAGE suggestions in
  let suggestions := pushIf (len changes >? 5) SUGGEST_SPLIT suggestions in
  let suggestions := pushIf (len suggestions =? 0) SUGGEST_FALLBACK suggestions in
  suggestions.

(** ** Implementation functions *)

(** The rethrow of a [catch] block: a new [Error] whose message is the
    prefix followed by the caught value's message. *)
Definition rethrow (prefix : string) (e : Thrown) : Thrown :=
  ErrorObject (prefix ++ messageOf e).

(** The [for] loop that cuts [filesToProcess] into batches.  The loop
    variable [i] grows by the batch size, so [fuel] iterations suffice when
    [fuel] exceeds the number of files. *)
Fixpoint makeBatches {A : Type} (fuel : nat) (i : Z) (filesToProcess : list A)
  : list (list A) :=
  match fuel with
  | O => []
  | S fuel' =>
    if i <? len filesToProcess
    then slice filesToProcess i (i + maxConcurrentDiffs DEFAULT_OPTIONS)
           :: makeBatches fuel' (i + maxConcurrentDiffs DEFAULT_OPTIONS) filesToProcess
    else []
  end.

(** One element of [batch.map(async file => ...)]: the diff of one file, or
    a warning and [null]. *)
Definition fetchDiff (git : SimpleGit) (f : GitFileStatus)
  : list Warning * option FileDiff :=
  match gitDiff git ["--"; gsFile f] with
  | Ok d => ([], Some (mkFileDiff (gsFile f) d (gsChanges f)))
  | Throw e =>
    ([mkWarning ("Failed to get diff for file " ++ gsFile f ++ ":") e], None)
  end.

Definition notNull {A : Type} (l : list (option A)) : list A :=
  flat_map (fun o => match o with Some a => [a] | None => [] end) l.

(** One turn of [for (const batch of batches)]: await the whole batch, keep
    the non-null results and push them.  The warnings of a batch are
    recorded in file order; the order in which concurrent fetches fail is
    not modelled. *)
Definition processBatch (git : SimpleGit) (acc : list Warning * list FileDiff)
           (batch : list GitFileStatus) : list Warning * list FileDiff :=
  let batchResults := map (fetchDiff git) batch in
  let validDiffs := notNull (map snd batchResults) in
  ((fst acc ++ flat_map fst batchResults)%list, (snd acc ++ validDiffs)%list).

Definition notARepositoryMessage (rootDir : string) : string :=
  "Directory " ++ rootDir ++ " is not a git repository".

(** The body of the [try] block of [getFileChangesInDirectory]. *)
Definition getFileChangesBody (simpleGit : string -> Result SimpleGit)
           (rootDir : string) (excludePatterns : list string)
  : list Warning * Result (list FileDiff) :=
  match simpleGit rootDir with
  | Throw e => ([], Throw e)
  | Ok git =>
    let additionalExcludes := newSet excludePatterns in
    match checkIsRepo git with
    | Throw e => ([], Throw e)
    | Ok isRepo =>
      if negb isRepo
      then ([], Throw (ErrorObject (notARepositoryMessage rootDir)))
      else
        match diffSummary git with
        | Throw e => ([], Throw e)
        | Ok summaryFiles =>
          let filesToProcess :=
            filter (fun f => negb (shouldExcludeFile (gsFile f) additionalExcludes))
                   summaryFiles in
          let batches :=
            makeBatches (S (List.length filesToProcess)) 0 filesToProcess in
          let '(warnings, diffs) := fold_left (processBatch git) batches ([], []) in
          (warnings, Ok (sort (fun a b => numSub (changes b) (changes a)) diffs))
        end
    end
  end.

Definition getFileChangesInDirectory (simpleGit : string -> Result SimpleGit)
           (params : FileChangeParams) : list Warning * Result (list FileDiff) :=
  let rootDir := fcRootDir params in
  let excludePatterns := withDefault (fcExcludePatterns params) [] in
  match getFileChangesBody simpleGit rootDir excludePatterns with
  | (warnings, Ok diffs) => (warnings, Ok diffs)
  | (warnings, Throw error) =>
    (warnings, Throw (rethrow "Failed to get file changes: " error))
  end.

(** [changes.map(change => ({ file, diff: change.diff || "", changes:
    change.changes || 0 }))]. *)
Definition toFileDiff (change : ChangeInput) : FileDiff :=
  mkFileDiff (inFile change)
             (orElse (withDefault (inDiff change) "") "")
             (Finite (withDefault (inChanges change) 0)).

(** The value of [commitMessage] before the length check, for a non-empty
    list of changes. *)
Definition composedCommitMessage (params : CommitMessageParams) : string :=
  let commitType :=
    match cmCommitType params with
    | Some t => commitTypeName t
    | None => "feat"
    end in
  let fileDiffs := map toFileDiff (cmChanges params) in
  let detectedType := detectCommitType fileDiffs in
  let finalCommitType := orElse commitType detectedType in
  let messageBody := generateMessageBody fileDiffs in
  finalCommitType
    ++ (if truthy (withDefault (cmScope params) "")
        then "(" ++ withDefault (cmScope params) "" ++ ")"
        else "")
    ++ ": " ++ messageBody.

(** No operation of the [try] block throws on schema-valid input, so the
    result is the returned string. *)
Definition generateCommitMessage (params : CommitMessageParams) : string :=
  if len (cmChanges params) =? 0 then "chore: no changes detected"
  else
    let commitMessage := composedCommitMessage params in
    if strlen commitMessage >? maxCommitMessageLength DEFAULT_OPTIONS
    then substring0 commitMessage (maxCommitMessageLength DEFAULT_OPTIONS - 3) ++ "..."
    else commitMessage.

Definition nl : string := String (ascii_of_nat 10) EmptyString.

Definition markdownContent (clock : Clock) (reviewContent : string) : string :=
  "# Code Review Report" ++ nl ++ nl ++ "**Date:** " ++ toLocaleString clock
    ++ nl ++ nl ++ "## Review Summary" ++ nl ++ nl ++ reviewContent
    ++ nl ++ nl ++ "---" ++ nl ++ "*Generated by Code Review Agent*".

Definition writeMarkdownReport (clock : Clock) (fs : FileSystem)
           (params : MarkdownReportParams) : FileSystem * Result string :=
  let outputPath := withDefault (outputPath params) "./code-reviews" in
  let fileName :=
    withDefault (fileName params)
                ("code-review-" ++ splitHead "T" (toISOString clock) ++ ".md") in
  let fullPath := Path.join outputPath fileName in
  match ensureDirectoryExists fs fullPath with
  | Throw error => (fs, Throw (rethrow "Failed to write markdown report: " error))
  | Ok fs1 =>
    match writeFile fs1 fullPath (markdownContent clock (reviewContent params)) with
    | (fs2, Throw error) =>
      (fs2, Throw (rethrow "Failed to write markdown report: " error))
    | (fs2, Ok _) => (fs2, Ok ("Markdown report saved to: " ++ fullPath))
    end
  end.

(** The report text composed by [performCodeReview]. *)
Definition reportContent (summary : string) (suggestions : list string)
           (commitMessage : string) : string :=
  "## Changes Summary" ++ nl ++ summary ++ nl ++ nl ++ "## Suggestions" ++ nl
    ++ join nl (map (fun s => "- " ++ s) suggestions)
    ++ nl ++ nl ++ "## Commit Message" ++ nl ++ "`" ++ commitMessage ++ "`".

(** What a run leaves behind besides its result: the file system and the
    warnings written to the console. *)
Record Run (A : Type) : Type := mkRun {
  runFs : FileSystem;
  runWarnings : list Warning;
  runResult : Result A
}.
Arguments mkRun {A} _ _ _.
Arguments runFs {A} _.
Arguments runWarnings {A} _.
Arguments runResult {A} _.

Definition performCodeReview (simpleGit : string -> Result SimpleGit)
           (clock : Clock) (fs : FileSystem) (params : CodeReviewParams)
  : Run CodeReviewResult :=
  let rootDir := crRootDir params in
  let excludePatterns := withDefault (crExcludePatterns params) [] in
  let outputReport := withDefault (outputReport params) false in
  match getFileChangesInDirectory simpleGit
          (mkFileChangeParams rootDir (Some excludePatterns)) with
  | (warnings, Throw error) =>
    mkRun fs warnings (Throw (rethrow "Failed to perform code review: " error))
  | (warnings, Ok changes) =>
    if len changes =? 0
    then mkRun fs warnings
           (Ok (mkCodeReviewResult [] "No changes detected for review"
                                   ["No changes to review"] None None))
    else
      let commitMessageChanges :=
        map (fun change => mkChangeInput (file change)
                                         (asOptional (Tools.changes change))
                                         (Some (diff change))) changes in
      let commitMessage :=
        generateCommitMessage (mkCommitMessageParams commitMessageChanges None None) in
      let summary := generateReviewSummary changes in
      let suggestions := generateSuggestions changes in
      if outputReport then
        match writeMarkdownReport clock fs
                (mkMarkdownReportParams
                   (reportContent summary suggestions commitMessage) None None) with
        | (fs', Throw error) =>
          mkRun fs' warnings (Throw (rethrow "Failed to perform code review: " error))
        | (fs', Ok result) =>
          mkRun fs' warnings
                (Ok (mkCodeReviewResult changes summary suggestions
                                        (Some commitMessage) (Some result)))
        end
      else
        mkRun fs warnings
              (Ok (mkCodeReviewResult changes summary suggestions
                                      (Some commitMessage) None))
  end.

End Tools.

(* ================================================================== *)
(** * Vocabulary of the properties *)
(* ================================================================== *)

Module Props.
Import JS World Tools.

(** The three rules of [generateSuggestions], each on its own. *)
Definition hasTypeScriptFile (changes : list FileDiff) : bool :=
  existsb (fun change => endsWith (file change) ".ts" || endsWith (file change) ".tsx")
          changes.

Definition hasTestLikePath (changes : list FileDiff) : bool :=
  existsb (fun change => includes (file change) "test" || includes (file change) "spec")
          changes.

Definition moreThanFiveFiles (changes : list FileDiff) : bool :=
  (5 <? List.length changes)%nat.

(** A path that the message body passes over: it looks like a test, a spec
    or a README. *)
Definition looksLikeTestOrReadme (change : FileDiff) : bool :=
  includes (file change) "test" || includes (file change) "spec"
  || includes (file change) "README".

(** The changes in the order the diff summary reports them: the files that
    are not excluded and whose diff could be fetched. *)
Definition reportedChanges (git : SimpleGit) (excludePatterns : list string)
           (summaryFiles : list GitFileStatus) : list FileDiff :=
  flat_map
    (fun f =>
       if shouldExcludeFile (gsFile f) (newSet excludePatterns) then []
       else match gitDiff git ["--"; gsFile f] with
            | Ok d => [mkFileDiff (gsFile f) d (gsChanges f)]
            | Throw _ => []
            end)
    summaryFiles.

(** The warnings that go with them: one per file that is not excluded and
    whose diff could not be fetched. *)
Definition reportedWarnings (git : SimpleGit) (excludePatterns : list string)
           (summaryFiles : list GitFileStatus) : list Warning :=
  flat_map
    (fun f =>
       if shouldExcludeFile (gsFile f) (newSet excludePatterns) then []
       else match gitDiff git ["--"; gsFile f] with
            | Ok _ => []
            | Throw e => [mkWarning ("Failed to get diff for file " ++ gsFile f ++ ":") e]
            end)
    summaryFiles.

(** A change that carries a change count, and a summary entry that does. *)
Definition counted (c : FileDiff) : Prop := exists z, changes c = Finite z.

Definition countedEntry (f : GitFileStatus) : Prop := exists z, gsChanges f = Finite z.

(** The change count as the sort reads it. *)
Definition countOf (c : FileDiff) : Z := sortOrder (changes c).

(** Descending order of change counts. *)
Definition descending (a b : FileDiff) : Prop := countOf a >= countOf b.

(** The sub-list of the changes with change count [k]. *)
Definition withCount (k : Z) (l : list FileDiff) : list FileDiff :=
  filter (fun c => countOf c =? k) l.

(** The number of dots in a string. *)
Fixpoint dots (s : string) : nat :=
  match s with
  | EmptyString => O
  | String c s' => ((if Path.isDot c then 1 else 0) + dots s')%nat
  end.

Definition dotFree (r : list ascii) : Prop :=
  Forall (fun c => Path.isDot c = false) r.

(** The invariant of the [extname] scan when [n] code units remain to be
    visited and [suf] has been visited: the extension found so far is a
    dot followed by dot-free code units that ends at [endIdx]; before the
    first dot, everything seen since [endIdx] is dot-free. *)
Definition extInv (n : nat) (suf : list ascii) (st : Path.ExtScan) : Prop :=
  (Path.endIdx st = -1 -> Path.startDot st = -1)
  /\ (Path.startDot st <> -1 ->
      exists a r b,
        suf = (a ++ "."%char :: r ++ b)%list
        /\ Z.of_nat n + Z.of_nat (List.length a) = Path.startDot st
        /\ Path.startDot st + 1 + Z.of_nat (List.length r) = Path.endIdx st
        /\ dotFree r)
  /\ (Path.startDot st = -1 -> Path.endIdx st <> -1 ->
      exists r b,
        suf = (r ++ b)%list
        /\ Z.of_nat n + Z.of_nat (List.length r) = Path.endIdx st
        /\ dotFree r).

(** What the invariant gives once the scan has stopped, in terms of the
    whole path. *)
Definition extFound (p : list ascii) (st : Path.ExtScan) : Prop :=
  Path.startDot st <> -1 ->
  exists a r b,
    p = (a ++ "."%char :: r ++ b)%list
    /\ Z.of_nat (List.length a) = Path.startDot st
    /\ Path.startDot st + 1 + Z.of_nat (List.length r) = Path.endIdx st
    /\ dotFree r.

(** ** The parts of a path that [extname] and [basename] look at *)

Definition slashes (l : list ascii) : Prop :=
  Forall (fun c => Path.isSlash c = true) l.

Definition slashFree (l : list ascii) : Prop :=
  Forall (fun c => Path.isSlash c = false) l.

(** [p] is the directory part [pre] (empty, or ending in a separator), the
    last component [comp] and the trailing separators [trail]; the component
    is empty only when the path holds nothing but separators. *)
Definition pathParts (p pre comp trail : list ascii) : Prop :=
  p = (pre ++ comp ++ trail)%list
  /\ (pre = [] \/ exists q, pre = (q ++ ["/"%char])%list)
  /\ slashFree comp
  /\ slashes trail
  /\ (comp = [] -> pre = []).

(** The last dot of a component: what stands before it and after it. *)
Fixpoint lastDot (l : list ascii) : option (list ascii * list ascii) :=
  match l with
  | [] => None
  | c :: l' =>
    match lastDot l' with
    | Some (x, r) => Some (c :: x, r)
    | None => if Path.isDot c then Some ([], l') else None
    end
  end.

Definition zlen (l : list ascii) : Z := Z.of_nat (List.length l).

(** The state of the [extname] scan inside the last component, when the
    component starts at index [base], its first [c1len] code units are still
    to be visited and [c2] has been visited. *)
Definition extStateOf (base c1len : Z) (c2 : list ascii) : Path.ExtScan :=
  match c2 with
  | [] => Path.extInit
  | _ =>
    let e := base + c1len + zlen c2 in
    match lastDot c2 with
    | None => Path.mkExtScan (-1) 0 e false 0
    | Some (x, _) =>
      Path.mkExtScan (base + c1len + zlen x) 0 e false
                     (match x with
                      | [] => 0
                      | d :: _ => if Path.isDot d then 1 else -1
                      end)
    end
  end.

(** The same for the scan of [basename] with the suffix [ext]. *)
Definition suffixStateOf (ext : list ascii) (base c1len : Z) (c2 : list ascii)
  : Path.BaseScan :=
  match c2 with
  | [] => Path.mkBaseScan 0 (-1) true (zlen ext - 1) (-1)
  | _ =>
    let e := base + c1len + zlen c2 in
    if zlen c2 <? zlen ext
    then Path.mkBaseScan 0 (-1) false (zlen ext - 1 - zlen c2) e
    else Path.mkBaseScan 0 (e - zlen ext) false (-1) e
  end.

(** The same for the scan of [basename] without a suffix. *)
Definition plainStateOf (base c1len : Z) (c2 : list ascii) : Path.BaseScan :=
  match c2 with
  | [] => Path.mkBaseScan 0 (-1) true (-1) (-1)
  | _ => Path.mkBaseScan 0 (base + c1len + zlen c2) false (-1) (-1)
  end.

End Props.

(* ================================================================== *)
(** * Concrete worlds *)
(* ================================================================== *)

Module Scenario.
Import JS World Tools Props.

(** A directory that exists but is not under version control. *)
Definition plainDirectory : SimpleGit :=
  mkSimpleGit (Ok false)
              (Throw (ErrorObject "fatal: not a git repository"))
              (fun _ => Throw (ErrorObject "fatal: not a git repository")).

(** A repository whose diff summary fails with the text of the
    not-a-repository message. *)
Definition brokenSummary : SimpleGit :=
  mkSimpleGit (Ok true)
              (Throw (ErrorObject (notARepositoryMessage "/tmp/plain")))
              (fun _ => Ok "").

(** A repository with five changed files: one is excluded by the built-in
    set, and the diff of [b.ts] cannot be fetched. *)
Definition workingTree : SimpleGit :=
  mkSimpleGit
    (Ok true)
    (Ok [mkGitFileStatus "a.ts" 3 2 1;
         mkGitFileStatus "dist/x.js" 100 60 40;
         mkGitFileStatus "b.ts" 7 7 0;
         mkGitFileStatus "c.md" 3 0 3;
         mkGitFileStatus "d.ts" 7 4 3])
    (fun args =>
       match args with
       | [_; f] => if String.eqb f "b.ts" then Throw (ErrorObject "spawn git EAGAIN")
                   else Ok ("diff --git a/" ++ f ++ " b/" ++ f)
       | _ => Throw OtherValue
       end).

(** A repository with a changed binary file between two text files: the
    entry of the binary file has no counts. *)
Definition binaryTree : SimpleGit :=
  mkSimpleGit
    (Ok true)
    (Ok [mkGitFileStatus "a.ts" 1 1 0;
         mkGitFileStatus "logo.png" Undefined Undefined Undefined;
         mkGitFileStatus "z.ts" 5 3 2])
    (fun _ => Ok "").

Definition simpleGit (rootDir : string) : Result SimpleGit :=
  if String.eqb rootDir "/repo" then Ok workingTree
  else if String.eqb rootDir "/tmp/plain" then Ok plainDirectory
  else if String.eqb rootDir "/tmp/broken" then Ok brokenSummary
  else Throw (ErrorObject "Cannot use simple-git on a directory that does not exist").

(** What the collector is expected to return on [/repo]. *)
Definition collected : list FileDiff :=
  [mkFileDiff "d.ts" "diff --git a/d.ts b/d.ts" 7;
   mkFileDiff "a.ts" "diff --git a/a.ts b/a.ts" 3;
   mkFileDiff "c.md" "diff --git a/c.md b/c.md" 3].

Definition warned : list Warning :=
  [mkWarning "Failed to get diff for file b.ts:" (ErrorObject "spawn git EAGAIN")].

Definition clock : Clock :=
  mkClock "2025-01-01T10:00:00.000Z" "1/1/2025, 10:00:00 AM".

(** Only the working directory exists; there is no report directory yet. *)
Definition emptyDisk : FileSystem := mkFileSystem ["."] [].

End Scenario.

(* ================================================================== *)
(** * The path utilities (validateDirectoryPath) *)
(* ================================================================== *)

Module Utils.
Import JS.

(** [path.resolve(inputPath)] with one argument, on POSIX: the argument is
    put in front of the empty result, then the working directory [cwd] unless
    the argument is absolute; the whole is normalised without a trailing
    separator. *)
Definition resolveStep (path : string) (acc : string * bool) : string * bool :=
  match path with
  | EmptyString => acc
  | String c0 _ => (path ++ "/" ++ fst acc, Path.isSlash c0)
  end.

Definition resolve (cwd inputPath : string) : string :=
  let acc0 := resolveStep inputPath (EmptyString, false) in
  let acc1 := if snd acc0 then acc0 else resolveStep cwd acc0 in
  let resolvedPath :=
    Path.normalizeString (list_ascii_of_string (fst acc1)) (negb (snd acc1)) in
  if snd acc1 then "/" ++ resolvedPath
  else if truthy resolvedPath then resolvedPath else ".".

(** A code unit of the class [[\/\\]]: a slash or a backslash. *)
Definition isSeparator (c : ascii) : bool :=
  Ascii.eqb c "/" || Ascii.eqb c (ascii_of_nat 92).

Fixpoint dropWhile {A : Type} (f : A -> bool) (l : list A) : list A :=
  match l with
  | [] => []
  | x :: l' => if f x then dropWhile f l' else l
  end.

(** [s.replace(/[\/\\]+$/, '')]: the run of separators at the end of the
    string, if there is one, is removed. *)
Definition stripTrailingSeparators (s : string) : string :=
  string_of_list_ascii (rev (dropWhile isSeparator (rev (list_ascii_of_string s)))).

Definition validateDirectoryPath (cwd inputPath : string) : string :=
  let resolvedPath := resolve cwd inputPath in
  stripTrailingSeparators resolvedPath.

End Utils.

(* ================================================================== *)
(** * Vocabulary of the further properties *)
(* ================================================================== *)

Module MoreProps.
Import JS World Tools Props.

(** The path at which [writeMarkdownReport] writes. *)
Definition reportFullPath (clock : Clock) (params : MarkdownReportParams) : string :=
  Path.join (withDefault (outputPath params) "./code-reviews")
            (withDefault (fileName params)
                         ("code-review-" ++ splitHead "T" (toISOString clock) ++ ".md")).

(** The result of a review that found nothing to review. *)
Definition noChangesResult : CodeReviewResult :=
  mkCodeReviewResult [] "No changes detected for review" ["No changes to review"]
                     None None.

(** The commit type that heads a synthesized message. *)
Definition headType (commitType : option CommitType) : string :=
  withDefault (option_map commitTypeName commitType) "feat".

Definition hasDocsMarker (changes : list FileDiff) : bool :=
  existsb (fun change => includes (file change) "README"
                         || includes (file change) "docs/") changes.

Definition hasFixMarker (changes : list FileDiff) : bool :=
  existsb (fun change => includes (file change) "fix"
                         || includes (file change) "bug") changes.

(** The summary files that pass the exclusion filter. *)
Definition keptFiles (excludePatterns : list string)
           (summaryFiles : list GitFileStatus) : list GitFileStatus :=
  filter (fun f => negb (shouldExcludeFile (gsFile f) (newSet excludePatterns)))
         summaryFiles.

(** A repository in which every diff fetch fails. *)
Definition unreadableTree : SimpleGit :=
  mkSimpleGit (Ok true)
              (Ok [mkGitFileStatus "a.ts" 3 2 1; mkGitFileStatus "b.ts" 7 7 0])
              (fun _ => Throw OtherValue).

(** A disk on which a report of the first of January already exists. *)
Definition usedDisk : FileSystem :=
  mkFileSystem ["code-reviews"; "."]
               [("code-reviews/code-review-2025-01-01.md", "old report");
                ("notes.txt", "keep me")].

(** The same disk when the device is full: the report of the first of
    January can be opened, but nothing can be written to it. *)
Definition fullDisk : FileSystem :=
  mkDisk (directories usedDisk) (regularFiles usedDisk)
         (fun p => if String.eqb p "code-reviews/code-review-2025-01-01.md"
                   then Some (WriteCut (ErrorObject "ENOSPC: no space left on device, write")
                                       0)
                   else None).

End MoreProps.

(* ================================================================== *)
(** * Facts about the built-ins *)
(* ================================================================== *)

Import JS World Tools Props Utils MoreProps.

Section StringFacts.

Lemma string_length_app (s t : string) :
  String.length (s ++ t) = (String.length s + String.length t)%nat.
Proof.
  induction s as [|c s IH]; simpl; [reflexivity | now rewrite IH].
Qed.

Lemma app_assoc_str (a b c : string) : (a ++ b) ++ c = a ++ b ++ c.
Proof.
  induction a as [|x a IH]; simpl; [reflexivity | now rewrite IH].
Qed.

Lemma app_empty_r (a : string) : a ++ "" = a.
Proof.
  induction a as [|x a IH]; simpl; [reflexivity | now rewrite IH].
Qed.

Lemma prefix_app (sub r : string) : String.prefix sub (sub ++ r) = true.
Proof.
  induction sub as [|c sub IH]; simpl.
  - now destruct r.
  - destruct (ascii_dec c c); [exact IH | congruence].
Qed.

Lemma prefix_inv (sub s : string) :
  String.prefix sub s = true -> exists r, s = sub ++ r.
Proof.
  revert s; induction sub as [|c sub IH]; intros s H.
  - exists s; reflexivity.
  - destruct s as [|d s]; simpl in H; [discriminate|].
    destruct (ascii_dec c d) as [->|]; [|discriminate].
    destruct (IH _ H) as [r ->]. now exists r.
Qed.

Lemma includes_prefix (s sub : string) :
  String.prefix sub s = true -> includes s sub = true.
Proof.
  intros H. destruct s; cbn [includes]; rewrite H; reflexivity.
Qed.

Lemma includes_app (a sub b : string) : includes (a ++ sub ++ b) sub = true.
Proof.
  induction a as [|c a IH].
  - change (includes (sub ++ b) sub = true).
    apply includes_prefix, prefix_app.
  - cbn [append includes]. rewrite IH. apply orb_true_r.
Qed.

Lemma includes_inv (s sub : string) :
  includes s sub = true -> exists a b, s = a ++ sub ++ b.
Proof.
  induction s as [|c s IH]; intros H.
  - cbn [includes] in H. rewrite orb_false_r in H.
    apply prefix_inv in H as [r ->]. exists "", r. reflexivity.
  - cbn [includes] in H. apply orb_true_iff in H as [H|H].
    + apply prefix_inv in H as [r ->]. exists "", r. reflexivity.
    + destruct (IH H) as (a & b & ->). exists (String c a), b. reflexivity.
Qed.

Lemma substring0_length (n : nat) (s : string) :
  String.length (String.substring 0 n s) = Nat.min n (String.length s).
Proof.
  revert s; induction n as [|n IH]; intros s.
  - now destruct s.
  - destruct s as [|c s]; simpl; [reflexivity | now rewrite IH].
Qed.

Lemma substring_all (s : string) :
  String.substring 0 (String.length s) s = s.
Proof.
  induction s as [|c s IH]; simpl; [reflexivity | now rewrite IH].
Qed.

Lemma substring_app_tail (a b : string) :
  String.substring (String.length a) (String.length b) (a ++ b) = b.
Proof.
  induction a as [|c a IH]; simpl; [apply substring_all | exact IH].
Qed.

Lemma endsWith_app (a b : string) : endsWith (a ++ b) b = true.
Proof.
  unfold endsWith. rewrite string_length_app.
  replace (String.length a + String.length b - String.length b)%nat
    with (String.length a) by lia.
  rewrite substring_app_tail, String.eqb_refl.
  rewrite andb_true_r. apply Nat.leb_le. lia.
Qed.

End StringFacts.

(* ================================================================== *)
(** * The [path] model on the examples of the Node.js documentation *)
(* ================================================================== *)

Section PathExamples.

Example extname_documented :
  map Path.extname ["index.html"; "index.coffee.md"; "index."; "index"; ".index";
                    ".index.md"]
  = [".html"; ".md"; "."; ""; ""; ".md"].
Proof. reflexivity. Qed.

Example basename_documented :
  Path.basename "/foo/bar/baz/asdf/quux.html" ".html" = "quux"
  /\ Path.basename "/foo/bar/baz/asdf/quux.html" "" = "quux.html"
  /\ Path.basename "aaa/bbb" "bbb" = "bbb"
  /\ Path.basename "/aaa/bbb//" "bb" = "b".
Proof. repeat split. Qed.

Example dirname_documented :
  Path.dirname "/foo/bar/baz/asdf/quux" = "/foo/bar/baz/asdf"
  /\ Path.dirname "code-reviews/code-review-2025-01-01.md" = "code-reviews"
  /\ Path.dirname "report.md" = ".".
Proof. repeat split. Qed.

Example join_documented :
  Path.join "/foo/bar" "baz/asdf/quux/.." = "/foo/bar/baz/asdf"
  /\ Path.join "./code-reviews" "code-review-2025-01-01.md"
     = "code-reviews/code-review-2025-01-01.md"
  /\ Path.join "" "" = ".".
Proof. repeat split. Qed.

End PathExamples.

(* ================================================================== *)
(** * Facts about [path.extname] *)
(* ================================================================== *)

Section ExtnameFacts.

Lemma isDot_true (c : ascii) : Path.isDot c = true -> c = "."%char.
Proof. unfold Path.isDot. apply Ascii.eqb_eq. Qed.

Lemma slice_middle {A : Type} (a m b : list A) :
  JS.slice (a ++ m ++ b)%list (Z.of_nat (List.length a))
           (Z.of_nat (List.length a) + Z.of_nat (List.length m)) = m.
Proof.
  unfold JS.slice, JS.clampIndex.
  rewrite !length_app.
  destruct (Z.ltb_spec (Z.of_nat (List.length a)) 0); [lia|].
  destruct (Z.ltb_spec (Z.of_nat (List.length a) + Z.of_nat (List.length m)) 0); [lia|].
  rewrite !Z.min_l by lia.
  rewrite Nat2Z.id.
  replace (Z.to_nat _) with (List.length m) by lia.
  rewrite skipn_app, skipn_all, Nat.sub_diag. simpl.
  rewrite firstn_app, firstn_all, Nat.sub_diag. simpl.
  apply app_nil_r.
Qed.

Lemma extnameLoop_inv (cs suf : list ascii) (st : Path.ExtScan) :
  extInv (List.length cs) suf st ->
  extFound (rev cs ++ suf)%list (Path.extnameLoop cs st).
Proof.
  revert suf st. induction cs as [|code rest IH]; intros suf st (I1 & I2 & I3).
  - intros Hd. destruct (I2 Hd) as (a & r & b & -> & Ha & Hr & Hf).
    exists a, r, b. simpl. repeat split; trivial; lia.
  - cbn [Path.extnameLoop rev]. rewrite <- app_assoc. cbn [app].
    cbn [List.length] in I2, I3.
    destruct (Path.isSlash code) eqn:Hs.
    + destruct (negb (Path.matchedSlash st)).
      * (* break *)
        intros Hd. cbn [Path.startDot Path.endIdx] in *.
        destruct (I2 Hd) as (a & r & b & -> & Ha & Hr & Hf).
        exists (rev rest ++ code :: a)%list, r, b.
        rewrite <- app_assoc. cbn [app].
        repeat split; trivial.
        rewrite length_app, length_rev. cbn [List.length]. lia.
      * (* continue *)
        apply IH. split; [trivial|]. split.
        -- intros Hd. destruct (I2 Hd) as (a & r & b & -> & Ha & Hr & Hf).
           exists (code :: a), r, b. cbn [List.length app].
           repeat split; trivial; lia.
        -- intros Hd He. destruct (I3 Hd He) as (r & b & -> & Hr & Hf).
           exists (code :: r), b. cbn [List.length app].
           repeat split; trivial; [lia|].
           constructor; trivial.
           unfold Path.isSlash, Path.isDot in *.
           apply Ascii.eqb_eq in Hs. now subst code.
    + apply IH. unfold Path.extStep.
      destruct (Z.eqb_spec (Path.endIdx st) (-1)) as [He|He].
      * (* the end of the component is fixed here *)
        specialize (I1 He). unfold extInv.
        destruct (Path.isDot code) eqn:Hdot; rewrite I1; simpl.
        -- apply isDot_true in Hdot. subst code.
           split; [lia|]. split; [|lia].
           intros _. exists [], [], suf. cbn [List.length app].
           repeat split; try lia. constructor.
        -- split; [lia|]. split; [lia|].
           intros _ _. exists [code], suf. cbn [List.length app].
           repeat split; try lia. constructor; [trivial | constructor].
      * (* the end is already known *)
        destruct (Path.isDot code) eqn:Hdot.
        -- destruct (Z.eqb_spec (Path.startDot st) (-1)) as [Hd|Hd].
           ++ apply isDot_true in Hdot. subst code.
              destruct (I3 Hd He) as (r & b & -> & Hr & Hf).
              unfold extInv. simpl.
              split; [lia|]. split; [|lia].
              intros _. exists [], r, b. cbn [List.length app].
              repeat split; trivial; lia.
           ++ assert (Hkeep : forall st',
                        Path.startDot st' = Path.startDot st ->
                        Path.endIdx st' = Path.endIdx st ->
                        extInv (List.length rest) (code :: suf) st').
              { intros st' E1 E2. unfold extInv. rewrite E1, E2.
                split; [lia|]. split; [|lia].
                intros _. destruct (I2 Hd) as (a & r & b & -> & Ha & Hr & Hf).
                exists (code :: a), r, b. cbn [List.length app].
                repeat split; trivial; lia. }
              destruct (negb (Path.preDotState st =? 1)); apply Hkeep; reflexivity.
        -- destruct (Z.eqb_spec (Path.startDot st) (-1)) as [Hd|Hd]; cbn [negb].
           ++ destruct (I3 Hd He) as (r & b & -> & Hr & Hf).
              unfold extInv. split; [lia|]. split; [lia|].
              intros _ _. exists (code :: r), b. cbn [List.length app].
              repeat split; trivial; [lia|]. constructor; trivial.
           ++ unfold extInv. cbn [Path.startDot Path.endIdx].
              split; [lia|]. split; [|lia].
              intros _. destruct (I2 Hd) as (a & r & b & -> & Ha & Hr & Hf).
              exists (code :: a), r, b. cbn [List.length app].
              repeat split; trivial; lia.
Qed.

(** [extname] returns the empty string or a dot followed by dot-free code
    units. *)
Lemma extnameChars_shape (p : list ascii) :
  Path.extnameChars p = [] \/
  exists r, Path.extnameChars p = ("."%char :: r) /\ dotFree r.
Proof.
  unfold Path.extnameChars.
  pose proof (extnameLoop_inv (rev p) [] Path.extInit) as H.
  rewrite rev_involutive, app_nil_r in H.
  set (st := Path.extnameLoop (rev p) Path.extInit) in *.
  destruct (Z.eqb_spec (Path.startDot st) (-1)) as [Hd|Hd]; [now left|].
  cbn [orb].
  match goal with |- (if ?c then _ else _) = _ \/ _ => destruct c end; [now left|].
  right.
  destruct H as (a & r & b & Hp & Ha & Hr & Hf); trivial.
  - unfold extInv, Path.extInit. cbn [Path.startDot Path.endIdx].
    repeat split; try lia; intros; lia.
  - exists r. split; trivial.
    rewrite <- Ha, <- Hr, <- Ha.
    replace (Z.of_nat (List.length a) + 1 + Z.of_nat (List.length r))
      with (Z.of_nat (List.length a) + Z.of_nat (List.length ("."%char :: r)))
      by (cbn [List.length]; lia).
    rewrite Hp at 1.
    change (a ++ "."%char :: r ++ b)%list with (a ++ ("."%char :: r) ++ b)%list.
    apply slice_middle.
Qed.

Lemma dots_app (s t : string) : dots (s ++ t) = (dots s + dots t)%nat.
Proof.
  induction s as [|c s IH]; simpl; [reflexivity | rewrite IH; lia].
Qed.

Lemma dots_dotFree (r : list ascii) :
  dotFree r -> dots (string_of_list_ascii r) = O.
Proof.
  induction 1 as [|c r Hc _ IH]; simpl; [reflexivity | now rewrite Hc, IH].
Qed.

Lemma extname_dots (p : string) : (dots (Path.extname p) <= 1)%nat.
Proof.
  unfold Path.extname.
  destruct (extnameChars_shape (list_ascii_of_string p)) as [->|(r & -> & Hf)].
  - simpl. lia.
  - cbn [string_of_list_ascii dots]. rewrite (dots_dotFree r Hf).
    destruct (Path.isDot "."); lia.
Qed.

Lemma includes_dots (s sub : string) :
  includes s sub = true -> (dots sub <= dots s)%nat.
Proof.
  intros H. apply includes_inv in H as (a & b & ->).
  rewrite !dots_app. lia.
Qed.

Lemma extname_has_no_test_marker (p : string) :
  existsb (fun testExt => includes (Path.extname p) testExt) [".test."; ".spec."] = false.
Proof.
  pose proof (extname_dots p) as Hd.
  cbn [existsb]. rewrite orb_false_r. apply orb_false_iff.
  split.
  - destruct (includes (Path.extname p) ".test.") eqn:E; [|reflexivity].
    apply includes_dots in E. cbn in E. lia.
  - destruct (includes (Path.extname p) ".spec.") eqn:E; [|reflexivity].
    apply includes_dots in E. cbn in E. lia.
Qed.

End ExtnameFacts.

(* ================================================================== *)
(** * Facts about [path.basename] applied to the result of [path.extname] *)
(* ================================================================== *)

Section BasenameFacts.

Local Open Scope list_scope.

Lemma isSlash_true (c : ascii) : Path.isSlash c = true -> c = "/"%char.
Proof. unfold Path.isSlash. apply Ascii.eqb_eq. Qed.

(** Every path has its parts. *)
Ltac split_parts := unfold pathParts; split; [|split; [|split; [|split]]].

Lemma pathParts_exist (p : list ascii) :
  exists pre comp trail, pathParts p pre comp trail.
Proof.
  induction p as [|c q IH] using rev_ind.
  - exists [], [], []. split_parts; auto; constructor.
  - destruct IH as (pre & comp & trail & -> & Hpre & Hcomp & Htrail & Hempty).
    destruct (Path.isSlash c) eqn:Hc.
    + exists pre, comp, (trail ++ [c]). split_parts; auto.
      * now rewrite <- !app_assoc.
      * apply Forall_app. split; [exact Htrail | now repeat constructor].
    + destruct trail as [|t trail'].
      * exists pre, (comp ++ [c]), []. split_parts; auto.
        -- now rewrite !app_nil_r, <- app_assoc.
        -- apply Forall_app. split; [exact Hcomp | now repeat constructor].
        -- intros E. now destruct comp.
      * destruct (exists_last (l := t :: trail')) as (t0 & s & E); [discriminate|].
        exists (pre ++ comp ++ t :: trail'), [c], []. split_parts.
        -- now rewrite <- !app_assoc.
        -- right. exists (pre ++ comp ++ t0). rewrite E.
           assert (Hs : Path.isSlash s = true).
           { unfold slashes in Htrail. rewrite E in Htrail.
             apply Forall_app in Htrail as [_ Hs]. now inversion Hs. }
           apply isSlash_true in Hs. subst s. now rewrite <- !app_assoc.
        -- now repeat constructor.
        -- constructor.
        -- discriminate.
Qed.

Lemma lastDot_split (l x r : list ascii) :
  lastDot l = Some (x, r) -> l = x ++ "."%char :: r.
Proof.
  revert x r. induction l as [|c l IH]; intros x r; cbn [lastDot]; [discriminate|].
  destruct (lastDot l) as [[x' r']|].
  - intros [= <- <-]. cbn [app]. f_equal. now apply IH.
  - destruct (Path.isDot c) eqn:Hc; [|discriminate].
    intros [= <- <-]. apply isDot_true in Hc. now subst c.
Qed.

(** *** The scan of [extname] *)

Lemma extnameLoop_skip (sl cs : list ascii) (st : Path.ExtScan) :
  slashes sl -> Path.matchedSlash st = true ->
  Path.extnameLoop (sl ++ cs) st = Path.extnameLoop cs st.
Proof.
  intros Hsl Hm. induction Hsl as [|c sl Hc _ IH]; [reflexivity|].
  cbn [app Path.extnameLoop]. now rewrite Hc, Hm.
Qed.

Lemma extStep_state (base c1len : Z) (c : ascii) (c2 : list ascii) :
  0 <= base -> 0 <= c1len ->
  Path.extStep (base + c1len) c (extStateOf base (c1len + 1) c2)
  = extStateOf base c1len (c :: c2).
Proof.
  intros Hb Hc1. unfold Path.extStep, extStateOf.
  cbn [lastDot]. unfold zlen.
  destruct c2 as [|d c2].
  - simpl. destruct (Path.isDot c); simpl; f_equal; lia.
  - set (l := d :: c2).
    assert (Hl : 0 < Z.of_nat (List.length l)) by (subst l; cbn [List.length]; lia).
    replace (Z.of_nat (List.length (c :: l))) with (Z.of_nat (List.length l) + 1)
      by (cbn [List.length]; lia).
    generalize dependent (Z.of_nat (List.length l)). intros n Hn.
    destruct (lastDot l) as [[x r]|];
      cbn [Path.endIdx Path.startDot Path.startPart Path.matchedSlash Path.preDotState].
    + destruct (Z.eqb_spec (base + (c1len + 1) + n) (-1)); [lia|].
      cbn [Path.endIdx Path.startDot Path.startPart Path.matchedSlash Path.preDotState].
      destruct (Z.eqb_spec (base + (c1len + 1) + Z.of_nat (List.length x)) (-1)); [lia|].
      replace (Z.of_nat (List.length (c :: x))) with (Z.of_nat (List.length x) + 1)
        by (cbn [List.length]; lia).
      destruct (Path.isDot c).
      * destruct x as [|d' x]; [|destruct (Path.isDot d')]; simpl negb; cbv iota;
          f_equal; lia.
      * cbn [negb]. f_equal; lia.
    + destruct (Z.eqb_spec (base + (c1len + 1) + n) (-1)); [lia|].
      cbn [Path.endIdx Path.startDot Path.startPart Path.matchedSlash Path.preDotState].
      simpl negb. cbv iota.
      destruct (Path.isDot c); simpl; f_equal; lia.
Qed.

Lemma extnameLoop_component (c1 c2 tail : list ascii) :
  slashFree c1 ->
  Path.extnameLoop (rev c1 ++ tail) (extStateOf (zlen tail) (zlen c1) c2)
  = Path.extnameLoop tail (extStateOf (zlen tail) 0 (c1 ++ c2)).
Proof.
  revert c2. induction c1 as [|c c1 IH] using rev_ind; intros c2 Hfree.
  - reflexivity.
  - apply Forall_app in Hfree as [Hfree Hc]. inversion Hc as [|? ? Hc' _]; subst.
    rewrite rev_app_distr. cbn [rev app Path.extnameLoop]. rewrite Hc'.
    rewrite <- app_assoc. cbn [app].
    rewrite <- (IH (c :: c2) Hfree). f_equal.
    unfold zlen. rewrite !length_app, length_rev. cbn [List.length].
    replace (Z.of_nat (List.length c1 + List.length tail))
      with (Z.of_nat (List.length tail) + Z.of_nat (List.length c1)) by lia.
    replace (Z.of_nat (List.length c1 + 1)) with (Z.of_nat (List.length c1) + 1) by lia.
    apply extStep_state; lia.
Qed.

Lemma slashes_rev (l : list ascii) : slashes l -> slashes (rev l).
Proof. apply Forall_rev. Qed.

(** The end of a scan over the directory part: nothing is left, or the scan
    breaks at the separator in front of the component. *)
Lemma extnameLoop_directory (pre : list ascii) (st : Path.ExtScan) :
  pre = [] \/ (exists q, pre = q ++ ["/"%char]) ->
  Path.matchedSlash st = false ->
  exists sp,
    Path.extnameLoop (rev pre) st
    = Path.mkExtScan (Path.startDot st) sp (Path.endIdx st) (Path.matchedSlash st)
                     (Path.preDotState st).
Proof.
  intros [->|(q & ->)] Hm.
  - exists (Path.startPart st). now destruct st.
  - rewrite rev_app_distr. cbn [rev app Path.extnameLoop].
    change (Path.isSlash "/") with true. cbv iota. rewrite Hm. cbn [negb].
    now eexists.
Qed.

(** [extname] on the parts of a path: the extension, when there is one, is
    the last dot of the component and what follows it, and something stands
    before that dot. *)
Lemma extnameChars_parts (p pre comp trail : list ascii) :
  pathParts p pre comp trail ->
  Path.extnameChars p = []
  \/ exists x r,
      x <> [] /\ comp = x ++ "."%char :: r /\ Path.extnameChars p = "."%char :: r.
Proof.
  intros (Hp & Hpre & Hcomp & Htrail & Hempty).
  unfold Path.extnameChars.
  assert (Hloop : Path.extnameLoop (rev p) Path.extInit
                  = Path.extnameLoop (rev pre) (extStateOf (zlen (rev pre)) 0 comp)).
  { rewrite Hp, !rev_app_distr, <- app_assoc.
    rewrite extnameLoop_skip by (trivial; now apply slashes_rev).
    change Path.extInit with (extStateOf (zlen (rev pre)) (zlen comp) []).
    rewrite extnameLoop_component by exact Hcomp.
    now rewrite app_nil_r. }
  rewrite Hloop. clear Hloop.
  destruct comp as [|c comp'].
  { rewrite (Hempty eq_refl). now left. }
  set (comp := c :: comp') in *.
  assert (Hz : zlen (rev pre) = zlen pre) by (unfold zlen; now rewrite length_rev).
  unfold extStateOf. fold comp.
  assert (Hcomp' : match comp with [] => False | _ => True end) by exact I.
  destruct (lastDot comp) as [[x r]|] eqn:Hdot.
  - apply lastDot_split in Hdot.
    replace (match comp with
             | [] => Path.extInit
             | _ => Path.mkExtScan (zlen (rev pre) + 0 + zlen x) 0
                                   (zlen (rev pre) + 0 + zlen comp) false
                                   (match x with
                                    | [] => 0
                                    | d :: _ => if Path.isDot d then 1 else -1
                                    end)
             end)
      with (Path.mkExtScan (zlen pre + zlen x) 0 (zlen pre + zlen comp) false
                           (match x with
                            | [] => 0
                            | d :: _ => if Path.isDot d then 1 else -1
                            end))
      by (subst comp; cbv iota; rewrite Hz; f_equal; lia).
    match goal with
    | |- context [Path.extnameLoop (rev pre) ?s] =>
      destruct (extnameLoop_directory pre s Hpre eq_refl) as (sp & ->)
    end.
    cbn [Path.startDot Path.endIdx Path.preDotState Path.startPart Path.matchedSlash].
    match goal with
    | |- (if ?b then _ else _) = _ \/ _ => destruct b eqn:Hcond
    end; [now left|].
    right. exists x, r. split; [|split; [exact Hdot|]].
    + intros ->. cbn in Hcond.
      rewrite !orb_false_iff in Hcond. destruct Hcond as [[[_ _] H0] _]. discriminate.
    + rewrite Hp, Hdot.
      replace (pre ++ (x ++ "."%char :: r) ++ trail)
        with ((pre ++ x) ++ ("."%char :: r) ++ trail)
        by (now rewrite <- !app_assoc).
      replace (zlen pre + zlen x) with (Z.of_nat (List.length (pre ++ x)))
        by (unfold zlen; rewrite length_app; lia).
      replace (zlen pre + zlen (x ++ "."%char :: r))
        with (Z.of_nat (List.length (pre ++ x))
              + Z.of_nat (List.length ("."%char :: r)))
        by (unfold zlen; rewrite !length_app; lia).
      apply slice_middle.
  - left.
    replace (match comp with
             | [] => Path.extInit
             | _ => Path.mkExtScan (-1) 0 (zlen (rev pre) + 0 + zlen comp) false 0
             end)
      with (Path.mkExtScan (-1) 0 (zlen pre + zlen comp) false 0)
      by (subst comp; cbv iota; rewrite Hz; f_equal; lia).
    match goal with
    | |- context [Path.extnameLoop (rev pre) ?s] =>
      destruct (extnameLoop_directory pre s Hpre eq_refl) as (sp & ->)
    end.
    reflexivity.
Qed.

(** *** The scan of [basename] without a suffix *)

Lemma basenamePlainLoop_skip (sl cs : list ascii) (st : Path.BaseScan) :
  slashes sl -> Path.bMatchedSlash st = true ->
  Path.basenamePlainLoop (sl ++ cs) st = Path.basenamePlainLoop cs st.
Proof.
  intros Hsl Hm. induction Hsl as [|c sl Hc _ IH]; [reflexivity|].
  cbn [app Path.basenamePlainLoop]. now rewrite Hc, Hm.
Qed.

Lemma basenamePlainLoop_component (c1 c2 tail : list ascii) :
  slashFree c1 ->
  Path.basenamePlainLoop (rev c1 ++ tail) (plainStateOf (zlen tail) (zlen c1) c2)
  = Path.basenamePlainLoop tail (plainStateOf (zlen tail) 0 (c1 ++ c2)).
Proof.
  revert c2. induction c1 as [|c c1 IH] using rev_ind; intros c2 Hfree.
  - reflexivity.
  - apply Forall_app in Hfree as [Hfree Hc]. inversion Hc as [|? ? Hc' _]; subst.
    rewrite rev_app_distr. cbn [rev app Path.basenamePlainLoop]. rewrite Hc'.
    rewrite <- app_assoc. cbn [app].
    rewrite <- (IH (c :: c2) Hfree).
    unfold zlen. rewrite !length_app, length_rev. cbn [List.length].
    destruct c2 as [|d c2]; cbn [plainStateOf Path.bEnd].
    + cbn [Z.eqb]. simpl Pos.eqb. cbv iota.
      cbn [Path.bStart Path.extIdx Path.firstNonSlashEnd].
      f_equal. unfold zlen. cbn [List.length]. f_equal; lia.
    + match goal with |- context [?a =? -1] => destruct (Z.eqb_spec a (-1)) end.
      * unfold zlen in *. cbn [List.length] in *. lia.
      * f_equal. unfold zlen. cbn [List.length]. f_equal; lia.
Qed.

Lemma basenamePlainLoop_directory (pre : list ascii) (st : Path.BaseScan) :
  pre = [] \/ (exists q, pre = q ++ ["/"%char]) ->
  Path.bMatchedSlash st = false ->
  Path.bStart st = 0 ->
  Path.basenamePlainLoop (rev pre) st
  = Path.mkBaseScan (zlen pre) (Path.bEnd st) (Path.bMatchedSlash st) (Path.extIdx st)
                    (Path.firstNonSlashEnd st).
Proof.
  intros [->|(q & ->)] Hm Hs.
  - destruct st. cbn in *. now subst.
  - rewrite rev_app_distr. cbn [rev app Path.basenamePlainLoop].
    change (Path.isSlash "/") with true. cbv iota. rewrite Hm. cbn [negb].
    f_equal. unfold zlen. rewrite length_rev, length_app. cbn [List.length]. lia.
Qed.

Lemma slice_component (pre m rest : list ascii) :
  JS.slice (pre ++ m ++ rest) (zlen pre) (zlen pre + zlen m) = m.
Proof. apply slice_middle. Qed.

(** [basename] without a suffix is the last component. *)
Lemma basenameChars_plain (p pre comp trail : list ascii) :
  pathParts p pre comp trail -> Path.basenameChars p [] = comp.
Proof.
  intros (Hp & Hpre & Hcomp & Htrail & Hempty).
  unfold Path.basenameChars. cbn [List.length Z.of_nat Z.ltb Z.compare andb].
  assert (Hloop : Path.basenamePlainLoop (rev p) (Path.mkBaseScan 0 (-1) true (-1) (-1))
                  = Path.basenamePlainLoop (rev pre) (plainStateOf (zlen (rev pre)) 0 comp)).
  { rewrite Hp, !rev_app_distr, <- app_assoc.
    rewrite basenamePlainLoop_skip by (trivial; now apply slashes_rev).
    change (Path.mkBaseScan 0 (-1) true (-1) (-1))
      with (plainStateOf (zlen (rev pre)) (zlen comp) []).
    rewrite basenamePlainLoop_component by exact Hcomp.
    now rewrite app_nil_r. }
  rewrite Hloop. clear Hloop.
  destruct comp as [|c comp'].
  { rewrite (Hempty eq_refl). reflexivity. }
  set (comp := c :: comp') in *.
  assert (Hz : zlen (rev pre) = zlen pre) by (unfold zlen; now rewrite length_rev).
  change (plainStateOf (zlen (rev pre)) 0 comp)
    with (Path.mkBaseScan 0 (zlen (rev pre) + 0 + zlen comp) false (-1) (-1)).
  rewrite basenamePlainLoop_directory by trivial.
  cbn [Path.bStart Path.bEnd].
  match goal with |- context [?a =? -1] => destruct (Z.eqb_spec a (-1)) end.
  { unfold zlen in *. lia. }
  rewrite Hp, Hz, Z.add_0_r. apply slice_component.
Qed.

(** *** The scan of [basename] with a suffix that ends the component *)

Lemma basenameSuffixLoop_skip (ext sl cs : list ascii) (st : Path.BaseScan) :
  slashes sl -> Path.bMatchedSlash st = true ->
  Path.basenameSuffixLoop ext (sl ++ cs) st = Path.basenameSuffixLoop ext cs st.
Proof.
  intros Hsl Hm. induction Hsl as [|c sl Hc _ IH]; [reflexivity|].
  cbn [app Path.basenameSuffixLoop]. now rewrite Hc, Hm.
Qed.

Lemma suffix_of_app (a b x e : list ascii) :
  a ++ b = x ++ e -> (List.length b <= List.length e)%nat ->
  exists y, e = y ++ b.
Proof.
  intros E Hlen. apply app_eq_app in E as (l & [[_ ->]|[_ ->]]).
  - now exists l.
  - rewrite length_app in Hlen. destruct l; [now exists [] | cbn in Hlen; lia].
Qed.

Lemma basenameSuffixStep_state (ext : list ascii) (base c1len : Z) (c : ascii)
      (c2 : list ascii) :
  0 <= base -> 0 <= c1len -> ext <> [] ->
  (zlen c2 < zlen ext -> exists y, ext = y ++ c :: c2) ->
  Path.basenameSuffixStep ext (base + c1len) c (suffixStateOf ext base (c1len + 1) c2)
  = suffixStateOf ext base c1len (c :: c2).
Proof.
  intros Hb Hc1 Hext Hmatch.
  assert (He : 0 < zlen ext) by (unfold zlen; destruct ext; cbn; [congruence | lia]).
  assert (Hnth : zlen c2 < zlen ext ->
                 Ascii.eqb c (nth (Z.to_nat (zlen ext - 1 - zlen c2)) ext zero) = true).
  { intros Hlt. destruct (Hmatch Hlt) as (y & ->).
    replace (Z.to_nat _) with (List.length y)
      by (unfold zlen; rewrite length_app; cbn [List.length]; lia).
    rewrite nth_middle. apply Ascii.eqb_refl. }
  assert (Hcons : zlen (c :: c2) = zlen c2 + 1) by (unfold zlen; cbn [List.length]; lia).
  assert (Hpos : 0 <= zlen c2) by (unfold zlen; lia).
  unfold Path.basenameSuffixStep, suffixStateOf. rewrite Hcons.
  destruct c2 as [|d c2'].
  - cbn [Path.firstNonSlashEnd Path.extIdx Path.bStart Path.bEnd Path.bMatchedSlash].
    change (zlen []) with 0 in *. rewrite Z.sub_0_r in Hnth.
    change (-1 =? -1) with true. cbv iota.
    cbn [Path.firstNonSlashEnd Path.extIdx Path.bStart Path.bEnd Path.bMatchedSlash].
    destruct (Z.geb_spec (zlen ext - 1) 0); [|lia].
    rewrite (Hnth He).
    destruct (Z.eqb_spec (zlen ext - 1 - 1) (-1)), (Z.ltb_spec (0 + 1) (zlen ext));
      try lia; f_equal; lia.
  - set (c2 := d :: c2') in *.
    assert (Hc2 : 0 < zlen c2) by (unfold zlen; subst c2; cbn [List.length]; lia).
    replace (match c2 with
             | [] => Path.mkBaseScan 0 (-1) true (zlen ext - 1) (-1)
             | _ =>
               if zlen c2 <? zlen ext
               then Path.mkBaseScan 0 (-1) false (zlen ext - 1 - zlen c2)
                                    (base + (c1len + 1) + zlen c2)
               else Path.mkBaseScan 0 (base + (c1len + 1) + zlen c2 - zlen ext) false (-1)
                                    (base + (c1len + 1) + zlen c2)
             end)
      with (if zlen c2 <? zlen ext
            then Path.mkBaseScan 0 (-1) false (zlen ext - 1 - zlen c2)
                                 (base + (c1len + 1) + zlen c2)
            else Path.mkBaseScan 0 (base + (c1len + 1) + zlen c2 - zlen ext) false (-1)
                                 (base + (c1len + 1) + zlen c2))
      by reflexivity.
    destruct (Z.ltb_spec (zlen c2) (zlen ext)) as [Hlt|Hge];
      cbn [Path.firstNonSlashEnd Path.extIdx Path.bStart Path.bEnd Path.bMatchedSlash].
    + destruct (Z.eqb_spec (base + (c1len + 1) + zlen c2) (-1)); [lia|].
      cbn [Path.firstNonSlashEnd Path.extIdx Path.bStart Path.bEnd Path.bMatchedSlash].
      destruct (Z.geb_spec (zlen ext - 1 - zlen c2) 0); [|lia].
      rewrite (Hnth Hlt).
      destruct (Z.eqb_spec (zlen ext - 1 - zlen c2 - 1) (-1)),
               (Z.ltb_spec (zlen c2 + 1) (zlen ext));
        try lia; f_equal; lia.
    + destruct (Z.eqb_spec (base + (c1len + 1) + zlen c2) (-1)); [lia|].
      cbn [Path.firstNonSlashEnd Path.extIdx Path.bStart Path.bEnd Path.bMatchedSlash].
      change (-1 >=? 0) with false. cbv iota.
      destruct (Z.ltb_spec (zlen c2 + 1) (zlen ext)); [lia|].
      f_equal; lia.
Qed.

Lemma basenameSuffixLoop_component (ext c1 c2 tail : list ascii) :
  slashFree c1 -> ext <> [] ->
  (exists x, c1 ++ c2 = x ++ ext) ->
  Path.basenameSuffixLoop ext (rev c1 ++ tail) (suffixStateOf ext (zlen tail) (zlen c1) c2)
  = Path.basenameSuffixLoop ext tail (suffixStateOf ext (zlen tail) 0 (c1 ++ c2)).
Proof.
  revert c2. induction c1 as [|c c1 IH] using rev_ind; intros c2 Hfree Hext (x & Hx).
  - reflexivity.
  - apply Forall_app in Hfree as [Hfree Hc]. inversion Hc as [|? ? Hc' _]; subst.
    rewrite <- app_assoc in Hx. cbn [app] in Hx.
    rewrite rev_app_distr. cbn [rev app Path.basenameSuffixLoop]. rewrite Hc'.
    rewrite <- app_assoc. cbn [app].
    rewrite <- (IH (c :: c2) Hfree Hext) by (now exists x). f_equal.
    replace (Z.of_nat (List.length (rev c1 ++ tail))) with (zlen tail + zlen c1)
      by (unfold zlen; rewrite length_app, length_rev; lia).
    replace (zlen (c1 ++ [c])) with (zlen c1 + 1)
      by (unfold zlen; rewrite length_app; cbn [List.length]; lia).
    apply basenameSuffixStep_state; trivial; try (unfold zlen; lia).
    intros Hlt. apply (suffix_of_app c1 (c :: c2) x ext Hx).
    unfold zlen in Hlt. cbn [List.length]. lia.
Qed.

Lemma basenameSuffixLoop_directory (ext pre : list ascii) (st : Path.BaseScan) :
  pre = [] \/ (exists q, pre = q ++ ["/"%char]) ->
  Path.bMatchedSlash st = false ->
  Path.bStart st = 0 ->
  Path.basenameSuffixLoop ext (rev pre) st
  = Path.mkBaseScan (zlen pre) (Path.bEnd st) (Path.bMatchedSlash st) (Path.extIdx st)
                    (Path.firstNonSlashEnd st).
Proof.
  intros [->|(q & ->)] Hm Hs.
  - destruct st. cbn in *. now subst.
  - rewrite rev_app_distr. cbn [rev app Path.basenameSuffixLoop].
    change (Path.isSlash "/") with true. cbv iota. rewrite Hm. cbn [negb].
    f_equal. unfold zlen. rewrite length_rev, length_app. cbn [List.length]. lia.
Qed.

Lemma eqChars_true (a b : list ascii) : Path.eqChars a b = true -> a = b.
Proof.
  unfold Path.eqChars. intros H. apply String.eqb_eq in H.
  apply (f_equal list_ascii_of_string) in H.
  now rewrite !list_ascii_of_string_of_list_ascii in H.
Qed.

(** [basename] with a suffix that ends the component, something standing
    before it, is the component without that suffix. *)
Lemma basenameChars_suffix (p pre trail x ext : list ascii) :
  pathParts p pre (x ++ ext) trail -> x <> [] -> ext <> [] ->
  Path.basenameChars p ext = x.
Proof.
  intros (Hp & Hpre & Hcomp & Htrail & Hempty) Hx Hext.
  assert (Hxl : 0 < zlen x) by (unfold zlen; destruct x; cbn; [congruence | lia]).
  assert (Hel : 0 < zlen ext) by (unfold zlen; destruct ext; cbn; [congruence | lia]).
  assert (Hpl : zlen p = zlen pre + zlen x + zlen ext + zlen trail)
    by (unfold zlen; rewrite Hp, !length_app; lia).
  assert (Hnn : 0 <= zlen pre /\ 0 <= zlen trail) by (unfold zlen; lia).
  unfold Path.basenameChars. fold (zlen ext) (zlen p).
  destruct (Z.ltb_spec 0 (zlen ext)); [|lia].
  destruct (Z.leb_spec (zlen ext) (zlen p)); [|lia].
  cbn [andb].
  destruct (Path.eqChars ext p) eqn:Heq.
  { apply eqChars_true in Heq. subst ext. lia. }
  assert (Hloop :
            Path.basenameSuffixLoop ext (rev p)
                                    (Path.mkBaseScan 0 (-1) true (zlen ext - 1) (-1))
            = Path.basenameSuffixLoop ext (rev pre)
                                      (suffixStateOf ext (zlen (rev pre)) 0 (x ++ ext))).
  { rewrite Hp, (rev_app_distr pre), (rev_app_distr (x ++ ext) trail), <- app_assoc.
    rewrite basenameSuffixLoop_skip by (trivial; now apply slashes_rev).
    change (Path.mkBaseScan 0 (-1) true (zlen ext - 1) (-1))
      with (suffixStateOf ext (zlen (rev pre)) (zlen (x ++ ext)) []).
    rewrite basenameSuffixLoop_component; trivial.
    - now rewrite app_nil_r.
    - exists x. now rewrite app_nil_r. }
  rewrite Hloop. clear Hloop.
  assert (Hz : zlen (rev pre) = zlen pre) by (unfold zlen; now rewrite length_rev).
  assert (Hxe : zlen (x ++ ext) = zlen x + zlen ext)
    by (unfold zlen; rewrite length_app; lia).
  assert (Hstate : suffixStateOf ext (zlen (rev pre)) 0 (x ++ ext)
                   = Path.mkBaseScan 0 (zlen pre + zlen x) false (-1)
                                     (zlen pre + zlen x + zlen ext)).
  { unfold suffixStateOf. rewrite Hxe, Hz.
    destruct (x ++ ext) eqn:E; [now destruct x|].
    destruct (Z.ltb_spec (zlen x + zlen ext) (zlen ext)); [lia|].
    f_equal; lia. }
  rewrite Hstate, basenameSuffixLoop_directory by trivial.
  cbn [Path.bStart Path.bEnd Path.firstNonSlashEnd].
  destruct (Z.eqb_spec (zlen pre) (zlen pre + zlen x)); [lia|].
  destruct (Z.eqb_spec (zlen pre + zlen x) (-1)); [lia|].
  rewrite Hp, <- app_assoc. apply slice_component.
Qed.

Lemma string_of_list_ascii_app (a b : list ascii) :
  string_of_list_ascii (a ++ b)
  = (string_of_list_ascii a ++ string_of_list_ascii b)%string.
Proof.
  induction a as [|c a IH]; cbn; [reflexivity | now rewrite IH].
Qed.

(** The base name without the extension, followed by the extension, is the
    base name. *)
Lemma basename_extname (p : string) :
  (Path.basename p (Path.extname p) ++ Path.extname p)%string = Path.basename p "".
Proof.
  unfold Path.basename, Path.extname.
  rewrite list_ascii_of_string_of_list_ascii, <- string_of_list_ascii_app.
  f_equal. cbn [list_ascii_of_string].
  set (l := list_ascii_of_string p).
  destruct (pathParts_exist l) as (pre & comp & trail & Hparts).
  rewrite (basenameChars_plain _ _ _ _ Hparts).
  destruct (extnameChars_parts _ _ _ _ Hparts) as [->|(x & r & Hx & Hc & ->)].
  - rewrite (basenameChars_plain _ _ _ _ Hparts). apply app_nil_r.
  - subst comp. rewrite (basenameChars_suffix l pre trail x ("."%char :: r)); trivial.
    discriminate.
Qed.

End BasenameFacts.

(* ================================================================== *)
(** * The commit message synthesizer *)
(* ================================================================== *)

Section CommitMessage.

Lemma len_nil_iff {A : Type} (l : list A) : (len l =? 0) = true <-> l = [].
Proof.
  unfold len. rewrite Z.eqb_eq. destruct l; simpl; split; intros H;
    try reflexivity; try discriminate; lia.
Qed.

Lemma len_gtb {A : Type} (l : list A) (n : nat) :
  (len l >? Z.of_nat n) = (n <? List.length l)%nat.
Proof.
  unfold len. rewrite Z.gtb_ltb.
  destruct (Z.ltb_spec (Z.of_nat n) (Z.of_nat (List.length l)));
    destruct (Nat.ltb_spec n (List.length l)); trivial; lia.
Qed.

(** C10. An empty list of changes gives the sentinel message, whatever
    commit type and scope come with it. *)
Theorem generateCommitMessage_empty_changes
        (commitType : option CommitType) (scope : option string) :
  generateCommitMessage (mkCommitMessageParams [] commitType scope)
  = "chore: no changes detected".
Proof. reflexivity. Qed.

(** C4. [detectCommitType] never answers "test": the test check looks for
    ".test." or ".spec." inside the result of [path.extname], which holds
    at most one dot. *)
Theorem detectCommitType_never_test (changes : list FileDiff) :
  detectCommitType changes <> "test".
Proof.
  unfold detectCommitType.
  assert (H : forall f : string -> bool,
             (forall p, f (Path.extname p) = false) ->
             existsb f (map (fun change => Path.extname (file change)) changes)
             = false).
  { intros f Hf. induction changes as [|c l IH]; [reflexivity|].
    cbn [map existsb]. now rewrite IH, Hf. }
  rewrite (H _ extname_has_no_test_marker).
  repeat match goal with |- (if ?c then _ else _) <> _ => destruct c end;
    discriminate.
Qed.

Lemma detectCommitType_test_file :
  detectCommitType [mkFileDiff "foo.test.ts" "" 1; mkFileDiff "bar.spec.js" "" 1]
  = "feat".
Proof. reflexivity. Qed.

(** The commit type of the composed message: an explicitly supplied type is
    used as it is, and an absent one is replaced by "feat" before the
    detected type is looked at. *)
Lemma composedCommitMessage_type (changes : list ChangeInput)
      (commitType : option CommitType) (scope : option string) :
  exists rest,
    composedCommitMessage (mkCommitMessageParams changes commitType scope)
    = withDefault (option_map commitTypeName commitType) "feat" ++ rest.
Proof.
  unfold composedCommitMessage. cbn [cmCommitType cmChanges cmScope].
  eexists. f_equal.
  destruct commitType as [[]|]; reflexivity.
Qed.

(** C1. On the scenario of the specification (a source file and a README,
    no commit type, scope "authentication") the message carries the type
    "feat" although [detectCommitType] answers "docs" on the same changes. *)
Theorem generateCommitMessage_scenario_type :
  let changes := [mkChangeInput "src/auth.ts" (Some 40) None;
                  mkChangeInput "README.md" (Some 2) None] in
  generateCommitMessage (mkCommitMessageParams changes None (Some "authentication"))
  = "feat(authentication): update auth with 2 files changed"
  /\ detectCommitType (map toFileDiff changes) = "docs".
Proof. split; reflexivity. Qed.

(** C5. The returned message has at most 72 code units, and a composed
    message longer than that comes back ending in "...". *)
Theorem generateCommitMessage_length (params : CommitMessageParams) :
  strlen (generateCommitMessage params) <= 72
  /\ (cmChanges params <> [] ->
      strlen (composedCommitMessage params) > 72 ->
      endsWith (generateCommitMessage params) "..." = true
      /\ strlen (generateCommitMessage params) = 72).
Proof.
  unfold generateCommitMessage.
  change (maxCommitMessageLength DEFAULT_OPTIONS) with 72.
  destruct (len (cmChanges params) =? 0) eqn:E.
  - split.
    + vm_compute. discriminate.
    + intros Hne. apply len_nil_iff in E. contradiction.
  - set (m := composedCommitMessage params).
    assert (Hcut : strlen m > 72 ->
                   strlen (substring0 m (72 - 3) ++ "...") = 72).
    { intros Hm. unfold strlen, substring0 in *.
      rewrite string_length_app, substring0_length.
      change (String.length "...") with 3%nat. lia. }
    destruct (Z.gtb_spec (strlen m) 72) as [Hm|Hm].
    + split; [rewrite Hcut; lia|].
      intros _ _. split; [apply endsWith_app | apply Hcut; lia].
    + split; [lia|]. intros _ Hlong. lia.
Qed.

Lemma generateCommitMessage_length_witness :
  endsWith
    (generateCommitMessage
       (mkCommitMessageParams
          [mkChangeInput "src/components/authentication/session-token-refresher.ts"
                         (Some 12) None]
          (Some CTrefactor) (Some "authentication-and-session-handling")))
    "..." = true.
Proof.
  apply (generateCommitMessage_length
           (mkCommitMessageParams
              [mkChangeInput "src/components/authentication/session-token-refresher.ts"
                             (Some 12) None]
              (Some CTrefactor) (Some "authentication-and-session-handling"))).
  - discriminate.
  - vm_compute. reflexivity.
Defined.

Lemma isMainFile_looksLike (c : FileDiff) :
  isMainFile c = negb (looksLikeTestOrReadme c).
Proof.
  unfold isMainFile, looksLikeTestOrReadme.
  now rewrite !negb_orb.
Qed.

Lemma filter_skip_all (l : list FileDiff) :
  Forall (fun c => looksLikeTestOrReadme c = true) l -> filter isMainFile l = [].
Proof.
  induction 1 as [|c l Hc _ IH]; [reflexivity|].
  cbn [filter]. now rewrite isMainFile_looksLike, Hc.
Qed.

(** C7. The message body passes over the changes that look like tests,
    specs or a README.  When nothing is left it is the generic body;
    otherwise it names the first change left by its base name without the
    extension (the name that, followed by the extension, is the base name)
    and counts all the changes of the list. *)
Theorem generateMessageBody_spec (changes : list FileDiff) :
  (Forall (fun c => looksLikeTestOrReadme c = true) changes ->
   generateMessageBody changes = "update documentation and tests")
  /\ (forall skipped primary rest,
         changes = (skipped ++ primary :: rest)%list ->
         Forall (fun c => looksLikeTestOrReadme c = true) skipped ->
         looksLikeTestOrReadme primary = false ->
         exists name,
           name ++ Path.extname (file primary) = Path.basename (file primary) ""
           /\ generateMessageBody changes
              = "update " ++ name
                  ++ " with " ++ numToString (Z.of_nat (List.length changes))
                  ++ " file" ++ (if (1 <? List.length changes)%nat then "s" else "")
                  ++ " changed").
Proof.
  unfold generateMessageBody. split.
  - intros H. now rewrite (filter_skip_all _ H).
  - intros skipped primary rest -> Hs Hp.
    exists (Path.basename (file primary) (Path.extname (file primary))).
    split; [apply basename_extname|].
    rewrite filter_app, (filter_skip_all _ Hs). cbn [app filter].
    rewrite isMainFile_looksLike, Hp. cbn [negb].
    change 1 with (Z.of_nat 1). rewrite len_gtb. reflexivity.
Qed.

Lemma generateMessageBody_spec_witness :
  generateMessageBody [mkFileDiff "README.md" "" 2; mkFileDiff "auth.spec.ts" "" 5]
  = "update documentation and tests"
  /\ exists name,
      name ++ ".ts" = "auth.ts"
      /\ generateMessageBody [mkFileDiff "README.md" "" 2; mkFileDiff "src/auth.ts" "" 40;
                              mkFileDiff "src/db.ts" "" 1]
         = "update " ++ name ++ " with 3 files changed".
Proof.
  split.
  - apply (generateMessageBody_spec
             [mkFileDiff "README.md" "" 2; mkFileDiff "auth.spec.ts" "" 5]).
    repeat constructor.
  - apply (proj2 (generateMessageBody_spec
                    [mkFileDiff "README.md" "" 2; mkFileDiff "src/auth.ts" "" 40;
                     mkFileDiff "src/db.ts" "" 1])
                 [mkFileDiff "README.md" "" 2] (mkFileDiff "src/auth.ts" "" 40)
                 [mkFileDiff "src/db.ts" "" 1]).
    + reflexivity.
    + repeat constructor.
    + reflexivity.
Defined.

End CommitMessage.

(* ================================================================== *)
(** * The review synthesizer *)
(* ================================================================== *)

Section Suggestions.

(** C8. The suggestion list is never empty; it holds the suggestions of the
    rules that fire, in rule order (TypeScript file, test-like path, more
    than five files), and the fallback exactly when none fires. *)
Theorem generateSuggestions_rules (changes : list FileDiff) :
  generateSuggestions changes <> []
  /\ generateSuggestions changes
     = ((if hasTypeScriptFile changes then [SUGGEST_TYPES] else [])
          ++ (if hasTestLikePath changes then [SUGGEST_COVERAGE] else [])
          ++ (if moreThanFiveFiles changes then [SUGGEST_SPLIT] else [])
          ++ (if negb (hasTypeScriptFile changes || hasTestLikePath changes
                       || moreThanFiveFiles changes)
              then [SUGGEST_FALLBACK] else []))%list.
Proof.
  unfold generateSuggestions, hasTypeScriptFile, hasTestLikePath, moreThanFiveFiles.
  change 5 with (Z.of_nat 5). rewrite len_gtb.
  destruct (existsb _ changes); destruct (existsb _ changes);
    destruct (5 <? List.length changes)%nat; cbn; split;
    (discriminate || reflexivity).
Qed.

End Suggestions.

(* ================================================================== *)
(** * Facts about [Array.prototype.sort] with a key comparator *)
(* ================================================================== *)

Section SortFacts.

Context {A : Type}.

Lemma insertBy_perm (cmp : A -> A -> Num) (x : A) (l : list A) :
  Permutation (insertBy cmp x l) (x :: l).
Proof.
  induction l as [|y l IH]; cbn [insertBy]; [reflexivity|].
  destruct (sortOrder (cmp x y) <=? 0); [reflexivity|].
  rewrite IH. apply perm_swap.
Qed.

Lemma sort_perm (cmp : A -> A -> Num) (l : list A) : Permutation (sort cmp l) l.
Proof.
  induction l as [|x l IH]; [reflexivity|].
  unfold sort in *. cbn [fold_right].
  rewrite insertBy_perm. now constructor.
Qed.

(** The comparator of the collector, for elements that all carry a number. *)
Variable num : A -> Num.

Let cmp : A -> A -> Num := fun a b => numSub (num b) (num a).
Let key : A -> Z := fun a => sortOrder (num a).
Let above : A -> A -> Prop := fun a b => key a >= key b.
Let finite : A -> Prop := fun a => exists z, num a = Finite z.

Lemma cmp_finite (x y : A) :
  finite x -> finite y -> sortOrder (cmp x y) = key y - key x.
Proof.
  intros (a & Ha) (b & Hb). unfold cmp, key. now rewrite Ha, Hb.
Qed.

Lemma insertBy_finite (x : A) (l : list A) :
  finite x -> Forall finite l -> Forall finite (insertBy cmp x l).
Proof.
  intros Hx Hl. eapply Permutation_Forall; [symmetry; apply insertBy_perm|].
  now constructor.
Qed.

Lemma sort_finite (l : list A) : Forall finite l -> Forall finite (sort cmp l).
Proof.
  intros Hl. eapply Permutation_Forall; [symmetry; apply sort_perm | exact Hl].
Qed.

Lemma insertBy_sorted (x : A) (l : list A) :
  finite x -> Forall finite l ->
  StronglySorted above l -> StronglySorted above (insertBy cmp x l).
Proof.
  intros Hx Hfin. induction 1 as [|y l Hl IH Hy]; cbn [insertBy].
  - repeat constructor.
  - inversion Hfin as [|? ? Hfy Hfl]; subst.
    rewrite (cmp_finite x y Hx Hfy).
    destruct (Z.leb_spec (key y - key x) 0) as [Hc|Hc].
    + constructor; [now constructor|].
      constructor; [unfold above; lia|].
      eapply Forall_impl; [|exact Hy]. unfold above. intros z Hz. lia.
    + constructor; [now apply IH|].
      eapply Permutation_Forall; [symmetry; apply insertBy_perm|].
      constructor; [unfold above; lia | exact Hy].
Qed.

Lemma sort_sorted (l : list A) :
  Forall finite l -> StronglySorted above (sort cmp l).
Proof.
  induction 1 as [|x l Hx Hl IH]; [constructor|].
  unfold sort in *. cbn [fold_right].
  apply insertBy_sorted; trivial. now apply sort_finite.
Qed.

Lemma insertBy_filter (k : Z) (x : A) (l : list A) :
  finite x -> Forall finite l ->
  filter (fun c => key c =? k) (insertBy cmp x l)
  = filter (fun c => key c =? k) (x :: l).
Proof.
  intros Hx. induction 1 as [|y l Hfy Hfl IH]; cbn [insertBy]; [reflexivity|].
  rewrite (cmp_finite x y Hx Hfy).
  destruct (Z.leb_spec (key y - key x) 0) as [Hc|Hc]; [reflexivity|].
  cbn [filter] in *. rewrite IH.
  destruct (Z.eqb_spec (key y) k), (Z.eqb_spec (key x) k); trivial; lia.
Qed.

(** Stability: elements with the same key keep their relative order. *)
Lemma sort_stable (k : Z) (l : list A) :
  Forall finite l ->
  filter (fun c => key c =? k) (sort cmp l) = filter (fun c => key c =? k) l.
Proof.
  induction 1 as [|x l Hx Hl IH]; [reflexivity|].
  unfold sort in *. cbn [fold_right].
  rewrite insertBy_filter by (trivial; now apply sort_finite).
  cbn [filter]. now rewrite IH.
Qed.

End SortFacts.

Section SetFacts.

Lemma setAdd_In (s : list string) (x y : string) :
  In y (setAdd s x) <-> In y s \/ y = x.
Proof.
  unfold setAdd. destruct (existsb (String.eqb x) s) eqn:E.
  - split; [tauto|]. intros [H| ->]; trivial.
    apply existsb_exists in E as (z & Hz & Heq).
    apply String.eqb_eq in Heq. now subst z.
  - rewrite in_app_iff. cbn [In]. intuition congruence.
Qed.

Lemma fold_setAdd_In (xs acc : list string) (y : string) :
  In y (fold_left setAdd xs acc) <-> In y acc \/ In y xs.
Proof.
  revert acc. induction xs as [|x xs IH]; intros acc; cbn [fold_left In].
  - tauto.
  - rewrite IH, setAdd_In. intuition congruence.
Qed.

Lemma newSet_In (xs : list string) (y : string) : In y (newSet xs) <-> In y xs.
Proof.
  unfold newSet. rewrite fold_setAdd_In. cbn [In]. tauto.
Qed.

(** A file that is not excluded neither contains nor starts with any
    built-in or additional pattern. *)
Lemma shouldExcludeFile_false (filePath : string) (extra : list string) :
  shouldExcludeFile filePath (newSet extra) = false ->
  forall pattern, In pattern (EXCLUDED_FILES ++ extra)%list ->
                  includes filePath pattern = false
                  /\ startsWith filePath pattern = false.
Proof.
  unfold shouldExcludeFile. intros H pattern Hin.
  apply orb_false_iff.
  destruct (includes filePath pattern || startsWith filePath pattern) eqn:E;
    [|reflexivity].
  rewrite <- H. symmetry. apply existsb_exists.
  exists pattern. split; [|exact E].
  apply newSet_In. apply in_app_iff. apply in_app_iff in Hin.
  destruct Hin as [Hin|Hin]; [now left | right; now apply newSet_In].
Qed.

End SetFacts.

(* ================================================================== *)
(** * The change collector *)
(* ================================================================== *)

Section ChangeCollector.

Lemma slice_skipn {A : Type} (l : list A) (i n : Z) :
  0 <= i -> 0 < n ->
  (JS.slice l i (i + n) ++ skipn (Z.to_nat (i + n)) l)%list = skipn (Z.to_nat i) l.
Proof.
  intros Hi Hn. unfold JS.slice, JS.clampIndex.
  destruct (Z.ltb_spec i 0); [lia|].
  destruct (Z.ltb_spec (i + n) 0); [lia|].
  set (L := Z.of_nat (List.length l)).
  assert (HL : L = Z.of_nat (List.length l)) by reflexivity.
  destruct (Z.le_gt_cases L i) as [Hout|Hin].
  - rewrite !(skipn_all2 l) by lia. now rewrite firstn_nil.
  - rewrite (Z.min_l i L) by lia.
    replace (Z.to_nat (i + n)) with (Z.to_nat n + Z.to_nat i)%nat by lia.
    rewrite <- skipn_skipn.
    set (m := skipn (Z.to_nat i) l).
    assert (Hm : List.length m = (List.length l - Z.to_nat i)%nat)
      by apply length_skipn.
    destruct (Z.le_gt_cases (i + n) L) as [Hfull|Hpart].
    + rewrite Z.min_l by lia.
      replace (Z.to_nat (i + n - i)) with (Z.to_nat n) by lia.
      apply firstn_skipn.
    + rewrite Z.min_r by lia.
      rewrite firstn_all2 by lia.
      rewrite skipn_all2 by lia.
      apply app_nil_r.
Qed.

(** The batches, laid end to end, are the files from index [i] on: the
    loop neither loses nor repeats a file when it has enough fuel. *)
Lemma makeBatches_concat {A : Type} (fuel : nat) (i : Z) (l : list A) :
  0 <= i -> len l - i < Z.of_nat fuel ->
  List.concat (makeBatches fuel i l) = skipn (Z.to_nat i) l.
Proof.
  revert i. induction fuel as [|fuel IH]; intros i Hi Hfuel.
  - unfold len in Hfuel. cbn [makeBatches List.concat].
    symmetry. apply skipn_all2. lia.
  - cbn [makeBatches].
    change (maxConcurrentDiffs DEFAULT_OPTIONS) with 10.
    destruct (Z.ltb_spec i (len l)) as [Hlt|Hge].
    + cbn [List.concat]. rewrite IH by lia.
      apply slice_skipn; lia.
    + unfold len in Hge. cbn [List.concat]. symmetry. apply skipn_all2. lia.
Qed.

Lemma makeBatches_all {A : Type} (l : list A) :
  List.concat (makeBatches (S (List.length l)) 0 l) = l.
Proof.
  rewrite makeBatches_concat; [reflexivity | lia | unfold len; lia].
Qed.

Lemma notNull_app {A : Type} (l1 l2 : list (option A)) :
  notNull (l1 ++ l2)%list = (notNull l1 ++ notNull l2)%list.
Proof. unfold notNull. apply flat_map_app. Qed.

(** The loop over the batches collects what one pass over all their files
    would collect. *)
Lemma fold_processBatch (git : SimpleGit) (batches : list (list GitFileStatus))
      (acc : list Warning * list FileDiff) :
  fold_left (processBatch git) batches acc
  = ((fst acc ++ flat_map (fun f => fst (fetchDiff git f)) (List.concat batches))%list,
     (snd acc ++ notNull (map (fun f => snd (fetchDiff git f)) (List.concat batches)))%list).
Proof.
  revert acc. induction batches as [|batch rest IH]; intros [w d].
  - cbn. now rewrite !app_nil_r.
  - cbn [fold_left List.concat]. rewrite IH. unfold processBatch. cbn [fst snd].
    rewrite flat_map_app, map_app, notNull_app, map_map.
    rewrite <- (app_assoc w), <- (app_assoc d).
    assert (E : flat_map fst (map (fetchDiff git) batch)
                = flat_map (fun f => fst (fetchDiff git f)) batch).
    { clear IH. induction batch as [|f batch IHb]; [reflexivity|].
      cbn [map flat_map]. now rewrite IHb. }
    now rewrite E.
Qed.

Lemma collected_changes (git : SimpleGit) (extra : list string)
      (summaryFiles : list GitFileStatus) :
  notNull (map (fun f => snd (fetchDiff git f))
               (filter (fun f => negb (shouldExcludeFile (gsFile f) (newSet extra)))
                       summaryFiles))
  = reportedChanges git extra summaryFiles.
Proof.
  unfold reportedChanges, notNull.
  induction summaryFiles as [|f l IH]; [reflexivity|].
  cbn [filter flat_map].
  destruct (shouldExcludeFile (gsFile f) (newSet extra)); cbn [negb]; [exact IH|].
  cbn [map flat_map]. rewrite IH. unfold fetchDiff.
  destruct (gitDiff git ["--"; gsFile f]); reflexivity.
Qed.

Lemma collected_warnings (git : SimpleGit) (extra : list string)
      (summaryFiles : list GitFileStatus) :
  flat_map (fun f => fst (fetchDiff git f))
           (filter (fun f => negb (shouldExcludeFile (gsFile f) (newSet extra)))
                   summaryFiles)
  = reportedWarnings git extra summaryFiles.
Proof.
  unfold reportedWarnings.
  induction summaryFiles as [|f l IH]; [reflexivity|].
  cbn [filter flat_map].
  destruct (shouldExcludeFile (gsFile f) (newSet extra)); cbn [negb]; [exact IH|].
  cbn [flat_map]. rewrite IH. unfold fetchDiff.
  destruct (gitDiff git ["--"; gsFile f]); reflexivity.
Qed.

(** What the collector returns on a repository whose summary could be
    read. *)
Lemma getFileChangesInDirectory_success
      (simpleGit : string -> Result SimpleGit) (params : FileChangeParams)
      (git : SimpleGit) (summaryFiles : list GitFileStatus) :
  simpleGit (fcRootDir params) = Ok git ->
  checkIsRepo git = Ok true ->
  diffSummary git = Ok summaryFiles ->
  getFileChangesInDirectory simpleGit params
  = (reportedWarnings git (withDefault (fcExcludePatterns params) []) summaryFiles,
     Ok (sort (fun a b => numSub (changes b) (changes a))
              (reportedChanges git (withDefault (fcExcludePatterns params) [])
                               summaryFiles))).
Proof.
  intros Hgit Hrepo Hsum.
  unfold getFileChangesInDirectory, getFileChangesBody.
  rewrite Hgit, Hrepo, Hsum. cbn [negb].
  rewrite fold_processBatch, makeBatches_all. cbn [fst snd app].
  now rewrite collected_changes, collected_warnings.
Qed.

(** A successful collection went through the repository check and the
    summary. *)
Lemma getFileChangesInDirectory_ok_inv
      (simpleGit : string -> Result SimpleGit) (params : FileChangeParams)
      (warnings : list Warning) (result : list FileDiff) :
  getFileChangesInDirectory simpleGit params = (warnings, Ok result) ->
  exists git summaryFiles,
    simpleGit (fcRootDir params) = Ok git
    /\ checkIsRepo git = Ok true
    /\ diffSummary git = Ok summaryFiles.
Proof.
  unfold getFileChangesInDirectory, getFileChangesBody.
  destruct (simpleGit (fcRootDir params)) as [git|e]; [|discriminate].
  destruct (checkIsRepo git) as [[|]|e] eqn:Hrepo; try discriminate.
  destruct (diffSummary git) as [summaryFiles|e] eqn:Hsum; [|discriminate].
  intros _. now exists git, summaryFiles.
Qed.

Lemma reportedChanges_In (git : SimpleGit) (extra : list string)
      (summaryFiles : list GitFileStatus) (c : FileDiff) :
  In c (reportedChanges git extra summaryFiles) <->
  exists f d,
    In f summaryFiles
    /\ shouldExcludeFile (gsFile f) (newSet extra) = false
    /\ gitDiff git ["--"; gsFile f] = Ok d
    /\ c = mkFileDiff (gsFile f) d (gsChanges f).
Proof.
  unfold reportedChanges. rewrite in_flat_map. split.
  - intros (f & Hf & Hc).
    destruct (shouldExcludeFile (gsFile f) (newSet extra)) eqn:Hex; [destruct Hc|].
    destruct (gitDiff git ["--"; gsFile f]) as [d|e] eqn:Hd; [|destruct Hc].
    destruct Hc as [<-|[]]. now exists f, d.
  - intros (f & d & Hf & Hex & Hd & ->).
    exists f. split; [exact Hf|]. rewrite Hex, Hd. now left.
Qed.

Lemma reportedWarnings_In (git : SimpleGit) (extra : list string)
      (summaryFiles : list GitFileStatus) (f : GitFileStatus) (e : Thrown) :
  In f summaryFiles ->
  shouldExcludeFile (gsFile f) (newSet extra) = false ->
  gitDiff git ["--"; gsFile f] = Throw e ->
  In (mkWarning ("Failed to get diff for file " ++ gsFile f ++ ":") e)
     (reportedWarnings git extra summaryFiles).
Proof.
  intros Hf Hex Hd. unfold reportedWarnings. apply in_flat_map.
  exists f. split; [exact Hf|]. rewrite Hex, Hd. now left.
Qed.

End ChangeCollector.

Section ChangeCollectorProperties.

Variable simpleGit : string -> Result SimpleGit.
Variable params : FileChangeParams.

Let rootDir : string := fcRootDir params.
Let extra : list string := withDefault (fcExcludePatterns params) [].

(** No returned path contains or starts with a built-in or extra pattern,
    whatever the summary lists. *)
Lemma getFileChangesInDirectory_excludes
      (git : SimpleGit) (summaryFiles : list GitFileStatus) :
  simpleGit rootDir = Ok git ->
  checkIsRepo git = Ok true ->
  diffSummary git = Ok summaryFiles ->
  exists warnings result,
    getFileChangesInDirectory simpleGit params = (warnings, Ok result)
    /\ (forall c pattern,
           In c result -> In pattern (EXCLUDED_FILES ++ extra)%list ->
           includes (file c) pattern = false
           /\ startsWith (file c) pattern = false).
Proof.
  intros Hgit Hrepo Hsum.
  eexists _, _. split.
  - apply (getFileChangesInDirectory_success _ _ _ _ Hgit Hrepo Hsum).
  - fold extra. intros c pattern Hc Hp.
    eapply Permutation_in in Hc; [|apply (sort_perm _)].
    apply reportedChanges_In in Hc as (f & d & _ & Hex & _ & ->).
    cbn [file]. exact (shouldExcludeFile_false _ _ Hex pattern Hp).
Qed.

Lemma reportedChanges_counted (git : SimpleGit) (patterns : list string)
      (summaryFiles : list GitFileStatus) :
  Forall countedEntry summaryFiles ->
  Forall counted (reportedChanges git patterns summaryFiles).
Proof.
  intros H. apply Forall_forall. intros c Hc.
  apply reportedChanges_In in Hc as (f & d & Hf & _ & _ & ->).
  rewrite Forall_forall in H. exact (H f Hf).
Qed.

(** When every entry of the summary carries a change count, the returned
    changes are the reported ones in descending order of change count, equal
    counts in reporting order. *)
Lemma getFileChangesInDirectory_sorted_when_counted
      (git : SimpleGit) (summaryFiles : list GitFileStatus) :
  simpleGit rootDir = Ok git ->
  checkIsRepo git = Ok true ->
  diffSummary git = Ok summaryFiles ->
  Forall countedEntry summaryFiles ->
  exists warnings result,
    getFileChangesInDirectory simpleGit params = (warnings, Ok result)
    /\ StronglySorted descending result
    /\ Permutation result (reportedChanges git extra summaryFiles)
    /\ (forall k, withCount k result
                  = withCount k (reportedChanges git extra summaryFiles)).
Proof.
  intros Hgit Hrepo Hsum Hcounted.
  eexists _, _. split.
  - apply (getFileChangesInDirectory_success _ _ _ _ Hgit Hrepo Hsum).
  - fold extra.
    pose proof (reportedChanges_counted git extra summaryFiles Hcounted) as Hc.
    split; [|split].
    + apply (sort_sorted changes). exact Hc.
    + apply (sort_perm _).
    + intros k. apply (sort_stable changes). exact Hc.
Qed.

(** C9. Once the repository check and the summary have succeeded, the
    collection succeeds whatever the single diffs do: a file whose diff
    fails is left out with a warning, every other reported file that is
    not excluded is returned. *)
Theorem getFileChangesInDirectory_tolerates_diff_failures
        (git : SimpleGit) (summaryFiles : list GitFileStatus) :
  simpleGit rootDir = Ok git ->
  checkIsRepo git = Ok true ->
  diffSummary git = Ok summaryFiles ->
  exists warnings result,
    getFileChangesInDirectory simpleGit params = (warnings, Ok result)
    /\ (forall f,
           In f summaryFiles ->
           shouldExcludeFile (gsFile f) (newSet extra) = false ->
           match gitDiff git ["--"; gsFile f] with
           | Ok d => In (mkFileDiff (gsFile f) d (gsChanges f)) result
           | Throw e =>
             In (mkWarning ("Failed to get diff for file " ++ gsFile f ++ ":") e)
                warnings
           end)
    /\ (forall c,
           In c result ->
           exists f d,
             In f summaryFiles
             /\ gitDiff git ["--"; gsFile f] = Ok d
             /\ c = mkFileDiff (gsFile f) d (gsChanges f))
    /\ Permutation result (reportedChanges git extra summaryFiles).
Proof.
  intros Hgit Hrepo Hsum.
  eexists _, _. split.
  - apply (getFileChangesInDirectory_success _ _ _ _ Hgit Hrepo Hsum).
  - fold extra. split; [|split].
    + intros f Hf Hex.
      destruct (gitDiff git ["--"; gsFile f]) as [d|e] eqn:Hd.
      * eapply Permutation_in; [symmetry; apply (sort_perm _)|].
        apply reportedChanges_In. now exists f, d.
      * now apply reportedWarnings_In.
    + intros c Hc.
      eapply Permutation_in in Hc; [|apply (sort_perm _)].
      apply reportedChanges_In in Hc as (f & d & Hf & _ & Hd & ->).
      now exists f, d.
    + apply (sort_perm _).
Qed.

(** C2 (as the code has it). When the repository check answers "no", the
    collector throws the not-a-repository error wrapped in the generic
    collection failure, like any other failure of the [try] block. *)
Theorem getFileChangesInDirectory_not_a_repository (git : SimpleGit) :
  simpleGit rootDir = Ok git ->
  checkIsRepo git = Ok false ->
  getFileChangesInDirectory simpleGit params
  = ([], Throw (ErrorObject ("Failed to get file changes: "
                               ++ notARepositoryMessage rootDir))).
Proof.
  intros Hgit Hrepo.
  unfold getFileChangesInDirectory, getFileChangesBody.
  fold rootDir. now rewrite Hgit, Hrepo.
Qed.

End ChangeCollectorProperties.

(** C6. On a repository with a changed binary file between two text files
    the returned changes are not in descending order of change count: the
    entry of the binary file has no count, every comparison with it answers
    [NaN], and the file with one change stays in front of the file with
    five. *)
Theorem getFileChangesInDirectory_binary_file_order :
  getFileChangesInDirectory (fun _ => Ok Scenario.binaryTree)
                            (mkFileChangeParams "/assets" None)
  = ([], Ok [mkFileDiff "a.ts" "" 1;
             mkFileDiff "logo.png" "" Undefined;
             mkFileDiff "z.ts" "" 5])
  /\ ~ StronglySorted descending
                      [mkFileDiff "a.ts" "" 1;
                       mkFileDiff "logo.png" "" Undefined;
                       mkFileDiff "z.ts" "" 5].
Proof.
  split; [reflexivity|].
  intros H. inversion H as [|? ? _ Hall]; subst.
  inversion Hall as [|? ? _ Hrest]; subst.
  inversion Hrest as [|? ? Hz _]; subst.
  unfold descending, countOf in Hz. cbn in Hz. lia.
Qed.

Lemma getFileChangesInDirectory_tolerates_diff_failures_witness :
  exists warnings result,
    getFileChangesInDirectory Scenario.simpleGit (mkFileChangeParams "/repo" None)
    = (warnings, Ok result)
    /\ In (mkWarning "Failed to get diff for file b.ts:" (ErrorObject "spawn git EAGAIN"))
          warnings
    /\ In (mkFileDiff "d.ts" "diff --git a/d.ts b/d.ts" 7) result.
Proof.
  destruct (getFileChangesInDirectory_tolerates_diff_failures
              Scenario.simpleGit (mkFileChangeParams "/repo" None)
              Scenario.workingTree _ eq_refl eq_refl eq_refl)
    as (warnings & result & Hrun & Hall & _ & _).
  exists warnings, result. split; [exact Hrun|]. split.
  - apply (Hall (mkGitFileStatus "b.ts" 7 7 0)); [|reflexivity].
    cbn. tauto.
  - apply (Hall (mkGitFileStatus "d.ts" 7 4 3)); [|reflexivity].
    cbn. tauto.
Defined.

Lemma getFileChangesInDirectory_not_a_repository_witness :
  getFileChangesInDirectory Scenario.simpleGit (mkFileChangeParams "/tmp/plain" None)
  = ([], Throw (ErrorObject
                  "Failed to get file changes: Directory /tmp/plain is not a git repository")).
Proof.
  apply (getFileChangesInDirectory_not_a_repository
           Scenario.simpleGit (mkFileChangeParams "/tmp/plain" None)
           Scenario.plainDirectory); reflexivity.
Defined.

(** C2 (as the specification states it, refuted). On a directory that is not
    a repository the thrown error is not the bare not-a-repository error: it
    is the generic collection failure, the very value that a failing diff
    summary with the same message produces. *)
Lemma not_a_repository_is_wrapped :
  exists e,
    snd (getFileChangesInDirectory Scenario.simpleGit
                                   (mkFileChangeParams "/tmp/plain" None))
    = Throw e
    /\ e <> ErrorObject (notARepositoryMessage "/tmp/plain")
    /\ e = rethrow "Failed to get file changes: "
                   (ErrorObject (notARepositoryMessage "/tmp/plain"))
    /\ snd (getFileChangesInDirectory Scenario.simpleGit
                                      (mkFileChangeParams "/tmp/broken" None))
       = Throw e.
Proof.
  eexists. split; [reflexivity|]. repeat split. discriminate.
Qed.

(* ================================================================== *)
(** * The report writer and the orchestrating review *)
(* ================================================================== *)

Section Review.

Lemma includes_app_l (a s sub : string) :
  includes s sub = true -> includes (a ++ s) sub = true.
Proof.
  intros H. apply includes_inv in H as (x & y & ->).
  rewrite <- app_assoc_str. apply includes_app.
Qed.

Lemma includes_app_r (s b sub : string) :
  includes s sub = true -> includes (s ++ b) sub = true.
Proof.
  intros H. apply includes_inv in H as (x & y & ->).
  rewrite !app_assoc_str. apply includes_app.
Qed.

Lemma includes_here (s b : string) : includes (s ++ b) s = true.
Proof. apply (includes_app "" s b). Qed.

Lemma writeFile_read (fs fs' : FileSystem) (p data : string) (u : unit) :
  writeFile fs p data = (fs', Ok u) -> readFile fs' p = Some data.
Proof.
  unfold writeFile.
  destruct (isDirectory fs p); [discriminate|].
  destruct (isDirectory fs (Path.dirname p));
    [|destruct (existsb _ _); discriminate].
  destruct (fault fs p) as [[e|e written]|]; try discriminate.
  intros [= <- _]. unfold readFile. cbn [regularFiles lookupFile].
  now rewrite String.eqb_refl.
Qed.

Lemma markdownContent_includes (clock : Clock) (content sub : string) :
  includes content sub = true ->
  includes (markdownContent clock content) sub = true.
Proof.
  intros H. unfold markdownContent.
  repeat (apply includes_app_l; try (apply includes_app_r; exact H)).
Qed.

Lemma reportContent_includes_summary (summary : string) (suggestions : list string)
      (commitMessage : string) :
  includes (reportContent summary suggestions commitMessage) summary = true.
Proof.
  unfold reportContent.
  do 2 apply includes_app_l. apply includes_here.
Qed.

Lemma reportContent_includes_message (summary : string) (suggestions : list string)
      (commitMessage : string) :
  includes (reportContent summary suggestions commitMessage) commitMessage = true.
Proof.
  unfold reportContent.
  do 13 apply includes_app_l. apply includes_here.
Qed.

Lemma prefixed_differs (prefix s : string) :
  prefix <> "" -> prefix ++ s <> s.
Proof.
  intros Hp E. apply (f_equal String.length) in E.
  rewrite string_length_app in E.
  destruct prefix; [congruence | simpl in E; lia].
Qed.

(** What a successful review with [outputReport] leaves behind: a report
    file that holds the summary and the commit message, and a [reportPath]
    that is the confirmation text of the writer, not the path of that
    file. *)
Lemma performCodeReview_report
      (simpleGit : string -> Result SimpleGit) (clock : Clock) (fs : FileSystem)
      (params : CodeReviewParams) (r : CodeReviewResult) :
  runResult (performCodeReview simpleGit clock fs params) = Ok r ->
  outputReport params = Some true ->
  resChanges r <> [] ->
  exists fullPath content message,
    reportPath r = Some ("Markdown report saved to: " ++ fullPath)
    /\ reportPath r <> Some fullPath
    /\ commitMessage r = Some message
    /\ readFile (runFs (performCodeReview simpleGit clock fs params)) fullPath
       = Some content
    /\ includes content (summary r) = true
    /\ includes content message = true.
Proof.
  unfold performCodeReview. intros Hrun Hout Hne. revert Hrun.
  rewrite Hout. cbn [withDefault].
  destruct (getFileChangesInDirectory simpleGit _) as [warnings [changes|e]];
    [|discriminate].
  destruct (len changes =? 0).
  { cbn [runResult]. intros [= <-]. now elim Hne. }
  unfold writeMarkdownReport.
  cbn [Tools.outputPath Tools.fileName reviewContent withDefault].
  set (fullPath := Path.join _ _).
  destruct (ensureDirectoryExists fs fullPath) as [fs1|e]; [|discriminate].
  destruct (writeFile fs1 fullPath _) as [fs2 [u|e]] eqn:Hw; [|discriminate].
  cbn [runResult runFs]. intros [= <-].
  cbn [reportPath commitMessage summary].
  eexists fullPath, _, _. repeat split.
  - intros [= E].
    apply (prefixed_differs "Markdown report saved to: " fullPath); [discriminate|].
    exact E.
  - exact (writeFile_read _ _ _ _ _ Hw).
  - apply markdownContent_includes, reportContent_includes_summary.
  - apply markdownContent_includes, reportContent_includes_message.
Qed.

(** C3. On a repository with changes and an empty disk, the review with
    [outputReport] writes the report to
    [code-reviews/code-review-2025-01-01.md], but its [reportPath] is the
    sentence "Markdown report saved to: ..." and no file has that name. *)
Theorem performCodeReview_reportPath_scenario :
  let run := performCodeReview Scenario.simpleGit Scenario.clock Scenario.emptyDisk
                               (mkCodeReviewParams "/repo" None (Some true)) in
  exists r,
    runResult run = Ok r
    /\ resChanges r = Scenario.collected
    /\ reportPath r
       = Some "Markdown report saved to: code-reviews/code-review-2025-01-01.md"
    /\ readFile (runFs run)
                "Markdown report saved to: code-reviews/code-review-2025-01-01.md"
       = None
    /\ isRegularFile (runFs run) "code-reviews/code-review-2025-01-01.md" = true
    /\ isDirectory (runFs run) "code-reviews" = true.
Proof.
  eexists. split; [reflexivity|]. repeat split.
Qed.

End Review.

(* ================================================================== *)
(** * Further properties of the exclusion filter and the change collector *)
(* ================================================================== *)

Section CollectorExtras.

(** X1. A path is excluded exactly when it contains a built-in or an
    additional pattern; the [startsWith] test adds nothing to [includes]. *)
Theorem shouldExcludeFile_iff_contains (filePath : string) (additional : list string) :
  shouldExcludeFile filePath additional = true
  <-> exists pattern,
      In pattern (["dist"; "bun.lock"; "node_modules"; ".git"; "coverage"]
                    ++ additional)%list
      /\ includes filePath pattern = true.
Proof.
  unfold shouldExcludeFile. rewrite existsb_exists. split.
  - intros (pattern & Hin & Hm). exists pattern. split.
    + apply (proj1 (newSet_In _ _)) in Hin. exact Hin.
    + apply orb_true_iff in Hm as [Hm|Hm]; [exact Hm|].
      now apply includes_prefix.
  - intros (pattern & Hin & Hm). exists pattern. split.
    + apply (proj2 (newSet_In _ _)). exact Hin.
    + now rewrite Hm.
Qed.

Lemma shouldExcludeFile_iff_contains_witness :
  shouldExcludeFile "packages/app/node_modules/x/index.js" [] = true.
Proof.
  apply (proj2 (shouldExcludeFile_iff_contains
                  "packages/app/node_modules/x/index.js" [])).
  exists "node_modules". split; [cbn; tauto | reflexivity].
Defined.

Lemma includes_empty (s : string) : includes s "" = true.
Proof. apply includes_prefix. now destruct s. Qed.

Lemma reportedChanges_all_excluded (git : SimpleGit) (extra : list string)
      (summaryFiles : list GitFileStatus) :
  (forall f, In f summaryFiles -> shouldExcludeFile (gsFile f) (newSet extra) = true) ->
  reportedChanges git extra summaryFiles = []
  /\ reportedWarnings git extra summaryFiles = [].
Proof.
  intros H. unfold reportedChanges, reportedWarnings.
  induction summaryFiles as [|f l IH]; [now split|].
  cbn [flat_map]. rewrite (H f) by now left. cbn [app].
  apply IH. intros g Hg. apply H. now right.
Qed.

(** X2. An empty string among the exclude patterns excludes every file: the
    collector returns no change and logs no warning, whatever the summary
    lists. *)
Theorem getFileChangesInDirectory_empty_pattern
        (simpleGit : string -> Result SimpleGit) (params : FileChangeParams)
        (git : SimpleGit) (summaryFiles : list GitFileStatus) :
  simpleGit (fcRootDir params) = Ok git ->
  checkIsRepo git = Ok true ->
  diffSummary git = Ok summaryFiles ->
  In "" (withDefault (fcExcludePatterns params) []) ->
  getFileChangesInDirectory simpleGit params = ([], Ok []).
Proof.
  intros Hgit Hrepo Hsum Hin.
  rewrite (getFileChangesInDirectory_success _ _ _ _ Hgit Hrepo Hsum).
  destruct (reportedChanges_all_excluded
              git (withDefault (fcExcludePatterns params) []) summaryFiles)
    as [-> ->]; [|reflexivity].
  intros f _. unfold shouldExcludeFile. apply existsb_exists.
  exists "". split.
  - apply newSet_In, in_app_iff. right. now apply newSet_In.
  - now rewrite includes_empty.
Qed.

Lemma getFileChangesInDirectory_empty_pattern_witness :
  getFileChangesInDirectory Scenario.simpleGit
                            (mkFileChangeParams "/repo" (Some ["src"; ""]))
  = ([], Ok []).
Proof.
  apply (getFileChangesInDirectory_empty_pattern
           Scenario.simpleGit (mkFileChangeParams "/repo" (Some ["src"; ""]))
           Scenario.workingTree _ eq_refl eq_refl eq_refl).
  cbn. tauto.
Defined.

(** A failed collection carries the prefix of the collector. *)
Lemma getFileChangesInDirectory_throw_prefix
      (simpleGit : string -> Result SimpleGit) (params : FileChangeParams)
      (warnings : list Warning) (e : Thrown) :
  getFileChangesInDirectory simpleGit params = (warnings, Throw e) ->
  exists cause, e = ErrorObject ("Failed to get file changes: " ++ cause).
Proof.
  unfold getFileChangesInDirectory.
  destruct (getFileChangesBody simpleGit _ _) as [w [d|e0]]; [discriminate|].
  intros [= _ <-]. now eexists.
Qed.

(** X3. A collection that fails throws an [Error] whose message is "Failed to
    get file changes: " followed by the message of the cause, and the cause
    is the opening of the directory, the repository check (failed, or
    answered no) or the diff summary; never a single diff, and no warning has
    been logged. *)
Theorem getFileChangesInDirectory_failure_causes
        (simpleGit : string -> Result SimpleGit) (params : FileChangeParams)
        (warnings : list Warning) (e : Thrown) :
  getFileChangesInDirectory simpleGit params = (warnings, Throw e) ->
  exists cause,
    e = ErrorObject ("Failed to get file changes: " ++ messageOf cause)
    /\ warnings = []
    /\ (simpleGit (fcRootDir params) = Throw cause
        \/ exists git,
            simpleGit (fcRootDir params) = Ok git
            /\ (checkIsRepo git = Throw cause
                \/ (checkIsRepo git = Ok false
                    /\ cause = ErrorObject (notARepositoryMessage (fcRootDir params)))
                \/ (checkIsRepo git = Ok true /\ diffSummary git = Throw cause))).
Proof.
  unfold getFileChangesInDirectory, getFileChangesBody.
  destruct (simpleGit (fcRootDir params)) as [git|e0] eqn:Hgit.
  - destruct (checkIsRepo git) as [[|]|e0] eqn:Hrepo; cbn [negb].
    + destruct (diffSummary git) as [summaryFiles|e0] eqn:Hsum.
      * destruct (fold_left _ _ _) as [w d]. discriminate.
      * intros [= <- <-]. exists e0. repeat split. right. exists git. tauto.
    + intros [= <- <-]. eexists. repeat split. right. exists git. tauto.
    + intros [= <- <-]. exists e0. repeat split. right. exists git. tauto.
  - intros [= <- <-]. exists e0. repeat split. now left.
Qed.

Lemma getFileChangesInDirectory_failure_causes_witness :
  exists cause,
    ErrorObject "Failed to get file changes: Cannot use simple-git on a directory that does not exist"
    = ErrorObject ("Failed to get file changes: " ++ messageOf cause)
    /\ Scenario.simpleGit "/nowhere" = Throw cause.
Proof.
  destruct (getFileChangesInDirectory_failure_causes
              Scenario.simpleGit (mkFileChangeParams "/nowhere" None) [] _ eq_refl)
    as (cause & He & _ & [Hc|(git & Hg & _)]).
  - exists cause. split; [exact He | exact Hc].
  - discriminate Hg.
Defined.

Lemma reported_lengths (git : SimpleGit) (extra : list string)
      (summaryFiles : list GitFileStatus) :
  (List.length (reportedChanges git extra summaryFiles)
   + List.length (reportedWarnings git extra summaryFiles))%nat
  = List.length (keptFiles extra summaryFiles).
Proof.
  unfold reportedChanges, reportedWarnings, keptFiles.
  induction summaryFiles as [|f l IH]; [reflexivity|].
  cbn [flat_map filter]. rewrite !length_app.
  destruct (shouldExcludeFile (gsFile f) (newSet extra)); cbn [negb].
  - cbn [List.length]. lia.
  - destruct (gitDiff git ["--"; gsFile f]); cbn [List.length]; lia.
Qed.

(** X4. Every summary file that passes the exclusion filter is accounted for
    exactly once: it is returned or it is warned about, so the returned
    changes and the warnings together are as many as the kept files. *)
Theorem getFileChangesInDirectory_accounting
        (simpleGit : string -> Result SimpleGit) (params : FileChangeParams)
        (git : SimpleGit) (summaryFiles : list GitFileStatus) :
  simpleGit (fcRootDir params) = Ok git ->
  checkIsRepo git = Ok true ->
  diffSummary git = Ok summaryFiles ->
  exists warnings result,
    getFileChangesInDirectory simpleGit params = (warnings, Ok result)
    /\ (List.length result + List.length warnings)%nat
       = List.length (keptFiles (withDefault (fcExcludePatterns params) [])
                                summaryFiles)
    /\ (List.length result <= List.length summaryFiles)%nat.
Proof.
  intros Hgit Hrepo Hsum.
  eexists _, _. split.
  - apply (getFileChangesInDirectory_success _ _ _ _ Hgit Hrepo Hsum).
  - rewrite (Permutation_length (sort_perm _ _)).
    pose proof (reported_lengths git (withDefault (fcExcludePatterns params) [])
                                 summaryFiles) as H.
    split; [exact H|].
    assert (List.length (keptFiles (withDefault (fcExcludePatterns params) [])
                                   summaryFiles) <= List.length summaryFiles)%nat
      by apply filter_length_le.
    lia.
Qed.

Lemma getFileChangesInDirectory_accounting_witness :
  exists warnings result,
    getFileChangesInDirectory Scenario.simpleGit (mkFileChangeParams "/repo" None)
    = (warnings, Ok result)
    /\ (List.length result + List.length warnings)%nat = 4%nat.
Proof.
  destruct (getFileChangesInDirectory_accounting
              Scenario.simpleGit (mkFileChangeParams "/repo" None)
              Scenario.workingTree _ eq_refl eq_refl eq_refl)
    as (warnings & result & Hrun & Hlen & _).
  exists warnings, result. split; [exact Hrun | exact Hlen].
Defined.

Lemma slice_length {A : Type} (l : list A) (i : Z) :
  0 <= i -> i < len l ->
  (1 <= List.length (JS.slice l i (i + 10)) <= 10)%nat.
Proof.
  intros Hi Hlt. unfold len in Hlt. unfold JS.slice, JS.clampIndex.
  destruct (Z.ltb_spec i 0); [lia|].
  destruct (Z.ltb_spec (i + 10) 0); [lia|].
  rewrite length_firstn, length_skipn. lia.
Qed.

Lemma makeBatches_sizes {A : Type} (fuel : nat) (i : Z) (l : list A) :
  0 <= i ->
  Forall (fun batch => (1 <= List.length batch <= 10)%nat) (makeBatches fuel i l).
Proof.
  revert i. induction fuel as [|fuel IH]; intros i Hi; cbn [makeBatches].
  - constructor.
  - change (maxConcurrentDiffs DEFAULT_OPTIONS) with 10.
    destruct (Z.ltb_spec i (len l)); [|constructor].
    constructor; [now apply slice_length | apply IH; lia].
Qed.

(** X5. The batches partition the files to process: laid end to end they are
    the list itself, and each batch holds at least one and at most ten files,
    so no more than ten diffs are fetched at a time. *)
Theorem makeBatches_partition {A : Type} (filesToProcess : list A) :
  List.concat (makeBatches (S (List.length filesToProcess)) 0 filesToProcess)
  = filesToProcess
  /\ Forall (fun batch => (1 <= List.length batch <= 10)%nat)
            (makeBatches (S (List.length filesToProcess)) 0 filesToProcess).
Proof.
  split; [apply makeBatches_all | apply makeBatches_sizes; lia].
Qed.

End CollectorExtras.

(* ================================================================== *)
(** * Further properties of the commit message and review synthesizers *)
(* ================================================================== *)

Section SynthesizerExtras.

Lemma substring0_app (p r : string) (n : nat) :
  (String.length p <= n)%nat ->
  String.substring 0 n (p ++ r) = p ++ String.substring 0 (n - String.length p) r.
Proof.
  revert n. induction p as [|c p IH]; intros n Hn.
  - cbn [append String.length]. now rewrite Nat.sub_0_r.
  - destruct n as [|n]; [cbn in Hn; lia|].
    cbn [append String.substring String.length Nat.sub].
    rewrite IH by (cbn in Hn; lia). reflexivity.
Qed.

(** A short head of the composed message is still the head of the returned
    message. *)
Lemma generateCommitMessage_head (params : CommitMessageParams) (head : string) :
  cmChanges params <> [] ->
  (String.length head <= 69)%nat ->
  startsWith (composedCommitMessage params) head = true ->
  startsWith (generateCommitMessage params) head = true.
Proof.
  intros Hne Hlen Hhead. unfold generateCommitMessage.
  destruct (len (cmChanges params) =? 0) eqn:E.
  { apply len_nil_iff in E. contradiction. }
  change (maxCommitMessageLength DEFAULT_OPTIONS) with 72.
  destruct (strlen (composedCommitMessage params) >? 72); [|exact Hhead].
  unfold startsWith in *. apply prefix_inv in Hhead as (r & ->).
  unfold substring0. change (Z.to_nat (72 - 3)) with 69%nat.
  rewrite substring0_app by exact Hlen.
  rewrite app_assoc_str. apply prefix_app.
Qed.

(** The bound of C5, for use by the properties of the review. *)
Lemma generateCommitMessage_bounded (params : CommitMessageParams) :
  strlen (generateCommitMessage params) <= 72.
Proof.
  unfold generateCommitMessage.
  change (maxCommitMessageLength DEFAULT_OPTIONS) with 72.
  destruct (len (cmChanges params) =? 0); [vm_compute; discriminate|].
  destruct (Z.gtb_spec (strlen (composedCommitMessage params)) 72) as [Hm|Hm]; [|lia].
  unfold strlen, substring0 in *.
  rewrite string_length_app, substring0_length.
  change (String.length "...") with 3%nat. lia.
Qed.

Lemma composedCommitMessage_head (changes : list ChangeInput)
      (commitType : option CommitType) (scope : option string) :
  startsWith (composedCommitMessage (mkCommitMessageParams changes commitType scope))
             (headType commitType
                ++ (if truthy (withDefault scope "") then "(" else ": "))
  = true.
Proof.
  unfold composedCommitMessage, startsWith, headType.
  cbn [cmCommitType cmChanges cmScope].
  assert (Htype : orElse (match commitType with
                          | Some t => commitTypeName t
                          | None => "feat"
                          end)
                         (detectCommitType (map toFileDiff changes))
                  = withDefault (option_map commitTypeName commitType) "feat")
    by (destruct commitType as [[]|]; reflexivity).
  rewrite Htype.
  destruct (truthy (withDefault scope "")).
  - rewrite <- !app_assoc_str. rewrite (app_assoc_str _ "(" _).
    rewrite <- (app_assoc_str _ "(" _). rewrite !app_assoc_str.
    change ("(" ++ withDefault scope "" ++ ")" ++ ": "
              ++ generateMessageBody (map toFileDiff changes))
      with ("(" ++ (withDefault scope "" ++ ")" ++ ": "
                      ++ generateMessageBody (map toFileDiff changes))).
    rewrite <- app_assoc_str. apply prefix_app.
  - change ("" ++ ": " ++ generateMessageBody (map toFileDiff changes))
      with (": " ++ generateMessageBody (map toFileDiff changes)).
    rewrite <- app_assoc_str. apply prefix_app.
Qed.

(** X6. For a non-empty list of changes the returned message starts with the
    supplied commit type, or with "feat" when none is supplied, followed by
    the opening parenthesis of a non-empty scope or else by the colon; the
    truncation never reaches this head. *)
Theorem generateCommitMessage_starts_with_type (changes : list ChangeInput)
        (commitType : option CommitType) (scope : option string) :
  changes <> [] ->
  startsWith (generateCommitMessage (mkCommitMessageParams changes commitType scope))
             (headType commitType
                ++ (if truthy (withDefault scope "") then "(" else ": "))
  = true.
Proof.
  intros Hne. apply generateCommitMessage_head.
  - exact Hne.
  - destruct commitType as [[]|]; destruct (truthy (withDefault scope ""));
      cbn; lia.
  - apply composedCommitMessage_head.
Qed.

Lemma generateCommitMessage_starts_with_type_witness :
  startsWith
    (generateCommitMessage
       (mkCommitMessageParams [mkChangeInput "docs/README.md" None None]
                              (Some CTchore) (Some "repo")))
    "chore(" = true.
Proof.
  apply (generateCommitMessage_starts_with_type
           [mkChangeInput "docs/README.md" None None] (Some CTchore) (Some "repo")).
  discriminate.
Defined.

(** X7. [detectCommitType] is a first-match rule over three outcomes: "docs"
    when some path contains "README" or "docs/", otherwise "fix" when some
    path contains "fix" or "bug", otherwise "feat". *)
Theorem detectCommitType_first_match (changes : list FileDiff) :
  detectCommitType changes
  = if hasDocsMarker changes then "docs"
    else if hasFixMarker changes then "fix"
    else "feat".
Proof.
  unfold detectCommitType, hasDocsMarker, hasFixMarker.
  assert (H : forall f : string -> bool,
             (forall p, f (Path.extname p) = false) ->
             existsb f (map (fun change => Path.extname (file change)) changes)
             = false).
  { intros f Hf. induction changes as [|c l IH]; [reflexivity|].
    cbn [map existsb]. now rewrite IH, Hf. }
  now rewrite (H _ extname_has_no_test_marker).
Qed.

Lemma detectCommitType_paths (l1 l2 : list FileDiff) :
  map file l1 = map file l2 -> detectCommitType l1 = detectCommitType l2.
Proof.
  intros H. unfold detectCommitType.
  assert (Hex : forall f : string -> bool,
             existsb (fun change => f (file change)) l1
             = existsb (fun change => f (file change)) l2).
  { intros f. revert l2 H. induction l1 as [|a l1 IH]; intros [|b l2] H;
      try discriminate; [reflexivity|].
    cbn [map] in H. injection H as Hab Hl. cbn [existsb].
    now rewrite Hab, (IH l2 Hl). }
  replace (map (fun x => Path.extname (file x)) l1)
    with (map Path.extname (map file l1)) by now rewrite map_map.
  replace (map (fun x => Path.extname (file x)) l2)
    with (map Path.extname (map file l2)) by now rewrite map_map.
  rewrite H.
  rewrite (Hex (fun p => includes p "README" || includes p "docs/")).
  rewrite (Hex (fun p => includes p "fix" || includes p "bug")).
  reflexivity.
Qed.

Lemma generateMessageBody_paths (l1 l2 : list FileDiff) :
  map file l1 = map file l2 -> generateMessageBody l1 = generateMessageBody l2.
Proof.
  intros H. unfold generateMessageBody.
  assert (Hlen : len l1 = len l2).
  { unfold len. apply (f_equal (@List.length string)) in H.
    rewrite !length_map in H. now rewrite H. }
  assert (Hfilter : map file (filter isMainFile l1) = map file (filter isMainFile l2)).
  { clear Hlen. revert l2 H. induction l1 as [|a l1 IH]; intros [|b l2] H;
      try discriminate; [reflexivity|].
    cbn [map] in H. injection H as Hab Hl. cbn [filter].
    assert (Hm : isMainFile a = isMainFile b) by (unfold isMainFile; now rewrite Hab).
    rewrite Hm. destruct (isMainFile b).
    - cbn [map]. rewrite Hab. f_equal. now apply IH.
    - now apply IH. }
  rewrite Hlen.
  destruct (filter isMainFile l1) as [|a m1], (filter isMainFile l2) as [|b m2];
    try discriminate; [reflexivity|].
  cbn [map] in Hfilter. injection Hfilter as -> _. reflexivity.
Qed.

(** X8. The commit message depends on the paths of the changes only: two
    lists of changes with the same paths in the same order give the same
    message, whatever their change counts and diff texts. *)
Theorem generateCommitMessage_paths_only (changes1 changes2 : list ChangeInput)
        (commitType : option CommitType) (scope : option string) :
  map inFile changes1 = map inFile changes2 ->
  generateCommitMessage (mkCommitMessageParams changes1 commitType scope)
  = generateCommitMessage (mkCommitMessageParams changes2 commitType scope).
Proof.
  intros H.
  assert (Hf : map file (map toFileDiff changes1) = map file (map toFileDiff changes2)).
  { rewrite !map_map. exact H. }
  assert (Hlen : len changes1 = len changes2).
  { unfold len. apply (f_equal (@List.length string)) in H.
    rewrite !length_map in H. now rewrite H. }
  unfold generateCommitMessage, composedCommitMessage.
  cbn [cmChanges cmCommitType cmScope].
  now rewrite Hlen, (detectCommitType_paths _ _ Hf), (generateMessageBody_paths _ _ Hf).
Qed.

Lemma generateCommitMessage_paths_only_witness :
  generateCommitMessage
    (mkCommitMessageParams [mkChangeInput "src/auth.ts" (Some 40) (Some "+ login")]
                           None None)
  = generateCommitMessage
      (mkCommitMessageParams [mkChangeInput "src/auth.ts" None None] None None).
Proof.
  apply (generateCommitMessage_paths_only
           [mkChangeInput "src/auth.ts" (Some 40) (Some "+ login")]
           [mkChangeInput "src/auth.ts" None None] None None).
  reflexivity.
Defined.

Lemma newSet_all_empty (l : list string) :
  Forall (fun s => s = "") l -> join ", " (newSet l) = "".
Proof.
  intros H. unfold newSet.
  assert (Hacc : forall acc, (acc = [] \/ acc = [""]) ->
                             fold_left setAdd l acc = [] \/ fold_left setAdd l acc = [""]).
  { induction H as [|x l Hx _ IH]; intros acc Hacc; [exact Hacc|].
    subst x. cbn [fold_left]. apply IH.
    destruct Hacc as [->| ->]; right; reflexivity. }
  destruct (Hacc [] (or_introl eq_refl)) as [-> | ->]; reflexivity.
Qed.

(** X9. When no changed file has an extension, the review summary names the
    file types as "various". *)
Theorem generateReviewSummary_various (changes : list FileDiff) :
  Forall (fun c => Path.extname (file c) = "") changes ->
  endsWith (generateReviewSummary changes) "File types: various" = true.
Proof.
  intros H. unfold generateReviewSummary.
  rewrite newSet_all_empty.
  - cbn [orElse].
    change (" total changes. File types: " ++ "various")
      with (" total changes. " ++ "File types: various").
    rewrite <- !app_assoc_str. apply endsWith_app.
  - induction H as [|c l Hc _ IH]; cbn [map]; constructor; trivial.
Qed.

Lemma generateReviewSummary_various_witness :
  endsWith (generateReviewSummary [mkFileDiff "Makefile" "" 3; mkFileDiff ".gitignore" "" 1])
           "File types: various" = true.
Proof.
  apply (generateReviewSummary_various
           [mkFileDiff "Makefile" "" 3; mkFileDiff ".gitignore" "" 1]).
  repeat constructor.
Defined.

End SynthesizerExtras.

(* ================================================================== *)
(** * Further properties of the report writer and the review *)
(* ================================================================== *)

Section ReportExtras.

Lemma isDirectory_app (fs : FileSystem) (more : list string) (d : string) :
  isDirectory (mkDisk (more ++ directories fs) (regularFiles fs) (fault fs)) d
  = existsb (String.eqb d) more || isDirectory fs d.
Proof. unfold isDirectory. cbn [directories]. apply existsb_app. Qed.

Lemma mkdirRecursive_inv (fs fs1 : FileSystem) (p : string) :
  mkdirRecursive fs p = Ok fs1 ->
  fs1 = mkDisk (filter (fun d => negb (isDirectory fs d)) (p :: ancestors p)
                  ++ directories fs)
               (regularFiles fs) (fault fs).
Proof.
  unfold mkdirRecursive.
  destruct (isRegularFile fs p); [discriminate|].
  destruct (existsb (isRegularFile fs) (ancestors p)); [discriminate|].
  destruct (firstRefusal fs _); [discriminate|].
  now intros [= <-].
Qed.

Lemma ensureDirectoryExists_frame (fs fs1 : FileSystem) (filePath : string) :
  ensureDirectoryExists fs filePath = Ok fs1 ->
  regularFiles fs1 = regularFiles fs
  /\ fault fs1 = fault fs
  /\ (forall d, isDirectory fs d = true -> isDirectory fs1 d = true).
Proof.
  unfold ensureDirectoryExists.
  destruct (access fs (Path.dirname filePath)).
  - intros [= <-]. now repeat split.
  - intros H. apply mkdirRecursive_inv in H. subst fs1.
    split; [reflexivity|]. split; [reflexivity|].
    intros d Hd. rewrite isDirectory_app, Hd. apply orb_true_r.
Qed.

Lemma writeFile_inv (fs fs2 : FileSystem) (p data : string) (u : unit) :
  writeFile fs p data = (fs2, Ok u) ->
  isDirectory fs p = false
  /\ isDirectory fs (Path.dirname p) = true
  /\ fault fs p = None
  /\ fs2 = mkDisk (directories fs) ((p, data) :: regularFiles fs) (fault fs).
Proof.
  unfold writeFile.
  destruct (isDirectory fs p); [discriminate|].
  destruct (isDirectory fs (Path.dirname p));
    [|destruct (existsb _ _); discriminate].
  destruct (fault fs p) as [[e|e written]|]; try discriminate.
  intros [= <- _]. now repeat split.
Qed.

(** A write that fails changes no directory and no file but, at most, the
    one it was to write. *)
Lemma writeFile_failure_frame (fs fs2 : FileSystem) (p data : string) (e : Thrown) :
  writeFile fs p data = (fs2, Throw e) ->
  directories fs2 = directories fs
  /\ (forall q, q <> p -> readFile fs2 q = readFile fs q).
Proof.
  unfold writeFile.
  destruct (isDirectory fs p); [intros [= <- _]; now split|].
  destruct (isDirectory fs (Path.dirname p));
    [|destruct (existsb _ _); intros [= <- _]; now split].
  destruct (fault fs p) as [[e0|e0 written]|]; [| |discriminate].
  - intros [= <- _]. now split.
  - intros [= <- _]. split; [reflexivity|].
    intros q Hq. unfold readFile. cbn [regularFiles lookupFile].
    now destruct (String.eqb_spec q p).
Qed.

Lemma writeMarkdownReport_ok_inv (clock : Clock) (fs fs' : FileSystem)
      (params : MarkdownReportParams) (message : string) :
  writeMarkdownReport clock fs params = (fs', Ok message) ->
  exists fs1,
    ensureDirectoryExists fs (reportFullPath clock params) = Ok fs1
    /\ writeFile fs1 (reportFullPath clock params)
                 (markdownContent clock (reviewContent params)) = (fs', Ok tt)
    /\ message = "Markdown report saved to: " ++ reportFullPath clock params.
Proof.
  unfold writeMarkdownReport. fold (reportFullPath clock params).
  destruct (ensureDirectoryExists fs (reportFullPath clock params)) as [fs1|e];
    [|discriminate].
  destruct (writeFile fs1 _ _) as [fs2 [[]|e]] eqn:Hw; [|discriminate].
  intros [= <- <-]. now exists fs1.
Qed.

(** X10. When the report writer succeeds, the file at the joined path holds
    the report built from the content, its directory exists, every other
    file reads as before, no directory has disappeared, and the returned
    text is "Markdown report saved to: " followed by that path. *)
Theorem writeMarkdownReport_postcondition (clock : Clock) (fs fs' : FileSystem)
        (params : MarkdownReportParams) (message : string) :
  writeMarkdownReport clock fs params = (fs', Ok message) ->
  message = "Markdown report saved to: " ++ reportFullPath clock params
  /\ readFile fs' (reportFullPath clock params)
     = Some (markdownContent clock (reviewContent params))
  /\ isDirectory fs' (Path.dirname (reportFullPath clock params)) = true
  /\ (forall q, q <> reportFullPath clock params -> readFile fs' q = readFile fs q)
  /\ (forall d, isDirectory fs d = true -> isDirectory fs' d = true).
Proof.
  intros H. apply writeMarkdownReport_ok_inv in H as (fs1 & He & Hw & ->).
  pose proof (writeFile_read _ _ _ _ _ Hw) as Hread.
  apply writeFile_inv in Hw as (_ & Hdir & _ & ->).
  apply ensureDirectoryExists_frame in He as (Hfiles & _ & Hdirs).
  split; [reflexivity|]. split; [exact Hread|]. split; [exact Hdir|]. split.
  - intros q Hq. unfold readFile. cbn [regularFiles lookupFile].
    destruct (String.eqb_spec q (reportFullPath clock params)); [contradiction|].
    now rewrite Hfiles.
  - intros d Hd. apply (Hdirs d Hd).
Qed.

Lemma writeMarkdownReport_postcondition_witness :
  exists fs' message,
    writeMarkdownReport Scenario.clock usedDisk
                        (mkMarkdownReportParams "looks fine" (Some "out/")
                                                (Some "review.md"))
    = (fs', Ok message)
    /\ message = "Markdown report saved to: out/review.md"
    /\ readFile fs' "notes.txt" = Some "keep me".
Proof.
  eexists _, _. split; [reflexivity|].
  destruct (writeMarkdownReport_postcondition
              Scenario.clock usedDisk _
              (mkMarkdownReportParams "looks fine" (Some "out/") (Some "review.md"))
              _ eq_refl) as (Hm & _ & _ & Hframe & _).
  split; [exact Hm|].
  rewrite (Hframe "notes.txt"); [reflexivity | discriminate].
Defined.



(** A failed report carries the prefix of the writer. *)
Lemma writeMarkdownReport_throw_prefix (clock : Clock) (fs fs' : FileSystem)
      (params : MarkdownReportParams) (e : Thrown) :
  writeMarkdownReport clock fs params = (fs', Throw e) ->
  exists cause, e = ErrorObject ("Failed to write markdown report: " ++ cause).
Proof.
  unfold writeMarkdownReport.
  destruct (ensureDirectoryExists fs _) as [fs1|e0].
  - destruct (writeFile fs1 _ _) as [fs2 [u|e1]]; [discriminate|].
    intros [= _ <-]. now eexists.
  - intros [= _ <-]. now eexists.
Qed.

(** X12. A report writer that fails throws an [Error] whose message starts
    with "Failed to write markdown report: "; every file other than the
    report reads as before and no directory has disappeared.  The report
    file itself is not covered: a write that is cut leaves it emptied. *)
Theorem writeMarkdownReport_failure (clock : Clock) (fs fs' : FileSystem)
        (params : MarkdownReportParams) (e : Thrown) :
  writeMarkdownReport clock fs params = (fs', Throw e) ->
  (exists cause, e = ErrorObject ("Failed to write markdown report: " ++ cause))
  /\ (forall q, q <> reportFullPath clock params -> readFile fs' q = readFile fs q)
  /\ (forall d, isDirectory fs d = true -> isDirectory fs' d = true).
Proof.
  unfold writeMarkdownReport. fold (reportFullPath clock params).
  destruct (ensureDirectoryExists fs (reportFullPath clock params)) as [fs1|e0] eqn:He.
  - destruct (writeFile fs1 _ _) as [fs2 [u|e1]] eqn:Hw; [discriminate|].
    intros [= <- <-]. split; [now eexists|].
    apply ensureDirectoryExists_frame in He as (Hfiles & _ & Hdirs).
    apply writeFile_failure_frame in Hw as (Hsame & Hframe).
    split.
    + intros q Hq. rewrite (Hframe q Hq). unfold readFile. now rewrite Hfiles.
    + intros d Hd. unfold isDirectory. rewrite Hsame. exact (Hdirs d Hd).
  - intros [= <- <-]. split; [now eexists|]. now split.
Qed.

Lemma writeMarkdownReport_failure_witness :
  exists fs' e,
    writeMarkdownReport Scenario.clock fullDisk (mkMarkdownReportParams "x" None None)
    = (fs', Throw e)
    /\ readFile fs' "notes.txt" = Some "keep me"
    /\ readFile fs' "code-reviews/code-review-2025-01-01.md" = Some "".
Proof.
  eexists _, _. split; [reflexivity|].
  destruct (writeMarkdownReport_failure
              Scenario.clock fullDisk _ (mkMarkdownReportParams "x" None None) _
              eq_refl) as (_ & Hframe & _).
  split; [|reflexivity].
  rewrite (Hframe "notes.txt"); [reflexivity | discriminate].
Defined.

(** X18. Making sure of the directory is idempotent: once it has succeeded,
    doing it again for the same file path succeeds and changes nothing. *)
Theorem ensureDirectoryExists_idempotent (fs fs1 : FileSystem) (filePath : string) :
  ensureDirectoryExists fs filePath = Ok fs1 ->
  ensureDirectoryExists fs1 filePath = Ok fs1.
Proof.
  unfold ensureDirectoryExists, access.
  destruct (isDirectory fs (Path.dirname filePath)
            || isRegularFile fs (Path.dirname filePath)) eqn:E.
  - intros [= <-]. now rewrite E.
  - apply orb_false_iff in E as [Hd Hf].
    intros H. apply mkdirRecursive_inv in H. subst fs1.
    rewrite isDirectory_app. cbn [filter]. rewrite Hd. cbn [negb existsb].
    now rewrite String.eqb_refl.
Qed.

Lemma ensureDirectoryExists_idempotent_witness :
  ensureDirectoryExists
    (mkFileSystem ["code-reviews"; "."] [])
    "code-reviews/code-review-2025-01-01.md"
  = Ok (mkFileSystem ["code-reviews"; "."] []).
Proof.
  apply (ensureDirectoryExists_idempotent
           Scenario.emptyDisk (mkFileSystem ["code-reviews"; "."] [])
           "code-reviews/code-review-2025-01-01.md").
  reflexivity.
Defined.

End ReportExtras.

Section ReviewExtras.

Variable simpleGit : string -> Result SimpleGit.
Variable clock : Clock.
Variable fs : FileSystem.
Variable params : CodeReviewParams.

(** The collection that the review starts with. *)
Let collection : list Warning * Result (list FileDiff) :=
  getFileChangesInDirectory
    simpleGit
    (mkFileChangeParams (crRootDir params)
                        (Some (withDefault (crExcludePatterns params) []))).

(** X13. A review that is not asked for a report leaves the file system as
    it found it. *)
Theorem performCodeReview_without_report :
  outputReport params <> Some true ->
  runFs (performCodeReview simpleGit clock fs params) = fs.
Proof.
  intros Hout. unfold performCodeReview.
  destruct (getFileChangesInDirectory simpleGit _) as [warnings [changes|e]];
    [|reflexivity].
  destruct (len changes =? 0); [reflexivity|].
  destruct (outputReport params) as [[|]|]; [congruence | reflexivity | reflexivity].
Qed.

(** X14. When every file of the summary is excluded or has a failing diff,
    the review answers with the fixed no-changes result, hands on the
    warnings, drafts no commit message and writes no report, even when a
    report is asked for. *)
Theorem performCodeReview_no_changes (git : SimpleGit)
        (summaryFiles : list GitFileStatus) :
  simpleGit (crRootDir params) = Ok git ->
  checkIsRepo git = Ok true ->
  diffSummary git = Ok summaryFiles ->
  (forall f, In f summaryFiles ->
             shouldExcludeFile (gsFile f)
                               (newSet (withDefault (crExcludePatterns params) []))
             = true
             \/ exists e, gitDiff git ["--"; gsFile f] = Throw e) ->
  performCodeReview simpleGit clock fs params
  = mkRun fs
          (reportedWarnings git (withDefault (crExcludePatterns params) []) summaryFiles)
          (Ok noChangesResult).
Proof.
  intros Hgit Hrepo Hsum Hall. unfold performCodeReview.
  rewrite (getFileChangesInDirectory_success
             simpleGit (mkFileChangeParams (crRootDir params) _) git summaryFiles
             Hgit Hrepo Hsum).
  cbn [fcExcludePatterns withDefault].
  assert (Hnone : reportedChanges git (withDefault (crExcludePatterns params) [])
                                  summaryFiles = []).
  { unfold reportedChanges. clear Hsum.
    induction summaryFiles as [|f l IH]; [reflexivity|].
    cbn [flat_map]. rewrite IH by (intros g Hg; apply Hall; now right).
    destruct (Hall f (or_introl eq_refl)) as [-> | (e & ->)]; [reflexivity|].
    now destruct (shouldExcludeFile _ _). }
  rewrite Hnone. reflexivity.
Qed.

(** X15. A successful review of a non-empty collection returns the collected
    changes (in descending order of change count when each of them carries a
    count), the summary and the suggestions computed from them, at least one
    suggestion, and a commit message of at most 72 code units that starts
    with "feat: ", the review passing neither commit type nor scope. *)
Theorem performCodeReview_result (r : CodeReviewResult) :
  runResult (performCodeReview simpleGit clock fs params) = Ok r ->
  resChanges r <> [] ->
  snd collection = Ok (resChanges r)
  /\ runWarnings (performCodeReview simpleGit clock fs params) = fst collection
  /\ (Forall counted (resChanges r) -> StronglySorted descending (resChanges r))
  /\ summary r = generateReviewSummary (resChanges r)
  /\ suggestions r = generateSuggestions (resChanges r)
  /\ suggestions r <> []
  /\ exists message,
      commitMessage r = Some message
      /\ startsWith message "feat: " = true
      /\ strlen message <= 72.
Proof.
  unfold collection, performCodeReview.
  destruct (getFileChangesInDirectory simpleGit _) as [warnings [changes|e]] eqn:Hcol;
    [|discriminate].
  destruct (len changes =? 0) eqn:Hlen.
  { cbn [runResult]. intros [= <-] Hne. now elim Hne. }
  assert (Hsorted : Forall counted changes -> StronglySorted descending changes).
  { destruct (getFileChangesInDirectory_ok_inv _ _ _ _ Hcol)
      as (git & summaryFiles & Hgit & Hrepo & Hsum).
    rewrite (getFileChangesInDirectory_success _ _ _ _ Hgit Hrepo Hsum) in Hcol.
    injection Hcol as _ <-. intros Hall.
    apply (sort_sorted Tools.changes).
    exact (Permutation_Forall (sort_perm _ _) Hall). }
  assert (Hsugg : generateSuggestions changes <> []).
  { unfold generateSuggestions, pushIf.
    destruct (existsb _ changes); destruct (existsb _ changes);
      destruct (len changes >? 5); cbn; discriminate. }
  assert (Hne : map (fun change => mkChangeInput (file change)
                                                 (asOptional (Tools.changes change))
                                                 (Some (Tools.diff change))) changes
                <> []).
  { destruct changes; [discriminate Hlen | discriminate]. }
  pose proof (generateCommitMessage_head
                (mkCommitMessageParams _ None None) "feat: " Hne
                ltac:(cbn; lia) (composedCommitMessage_head _ None None)) as Hhead.
  pose proof (generateCommitMessage_bounded (mkCommitMessageParams
                (map (fun change => mkChangeInput (file change)
                                                  (asOptional (Tools.changes change))
                                                  (Some (Tools.diff change))) changes)
                None None)) as Hbound.
  destruct (withDefault (outputReport params) false).
  - destruct (writeMarkdownReport clock fs _) as [fs' [result|e]]; [|discriminate].
    cbn [runResult runWarnings fst snd]. intros [= <-] _.
    cbn [resChanges summary suggestions commitMessage].
    repeat split; trivial. eexists. repeat split; trivial.
  - cbn [runResult runWarnings fst snd]. intros [= <-] _.
    cbn [resChanges summary suggestions commitMessage].
    repeat split; trivial. eexists. repeat split; trivial.
Qed.

(** X16. A review that fails throws an [Error] whose message is "Failed to
    perform code review: " followed by the message of a failed collection
    ("Failed to get file changes: ...") or of a failed report ("Failed to
    write markdown report: ..."). *)
Theorem performCodeReview_failure (e : Thrown) :
  runResult (performCodeReview simpleGit clock fs params) = Throw e ->
  exists cause,
    e = ErrorObject ("Failed to perform code review: " ++ cause)
    /\ (startsWith cause "Failed to get file changes: " = true
        \/ startsWith cause "Failed to write markdown report: " = true).
Proof.
  unfold performCodeReview.
  destruct (getFileChangesInDirectory simpleGit _) as [warnings [changes|e0]] eqn:Hcol.
  - destruct (len changes =? 0); [discriminate|].
    destruct (withDefault (outputReport params) false); [|discriminate].
    destruct (writeMarkdownReport clock fs _) as [fs' [result|e1]] eqn:Hw;
      [discriminate|].
    cbn [runResult]. intros [= <-].
    apply writeMarkdownReport_throw_prefix in Hw as (cause & ->).
    eexists. split; [reflexivity|]. right. apply prefix_app.
  - cbn [runResult]. intros [= <-].
    apply getFileChangesInDirectory_throw_prefix in Hcol as (cause & ->).
    eexists. split; [reflexivity|]. left. apply prefix_app.
Qed.

End ReviewExtras.

Lemma performCodeReview_without_report_witness :
  runFs (performCodeReview Scenario.simpleGit Scenario.clock usedDisk
                           (mkCodeReviewParams "/repo" None None))
  = usedDisk.
Proof.
  apply (performCodeReview_without_report
           Scenario.simpleGit Scenario.clock usedDisk
           (mkCodeReviewParams "/repo" None None)).
  discriminate.
Defined.

Lemma performCodeReview_no_changes_witness :
  performCodeReview (fun _ => Ok unreadableTree) Scenario.clock Scenario.emptyDisk
                    (mkCodeReviewParams "/repo" None (Some true))
  = mkRun Scenario.emptyDisk
          [mkWarning "Failed to get diff for file a.ts:" OtherValue;
           mkWarning "Failed to get diff for file b.ts:" OtherValue]
          (Ok noChangesResult).
Proof.
  apply (performCodeReview_no_changes
           (fun _ => Ok unreadableTree) Scenario.clock Scenario.emptyDisk
           (mkCodeReviewParams "/repo" None (Some true))
           unreadableTree _ eq_refl eq_refl eq_refl).
  intros f _. right. now exists OtherValue.
Defined.

Lemma performCodeReview_result_witness :
  exists r,
    runResult (performCodeReview Scenario.simpleGit Scenario.clock Scenario.emptyDisk
                                 (mkCodeReviewParams "/repo" None None)) = Ok r
    /\ suggestions r = generateSuggestions (resChanges r).
Proof.
  eexists. split; [reflexivity|].
  apply (performCodeReview_result
           Scenario.simpleGit Scenario.clock Scenario.emptyDisk
           (mkCodeReviewParams "/repo" None None) _ eq_refl).
  discriminate.
Defined.

Lemma performCodeReview_failure_witness :
  exists cause,
    ErrorObject "Failed to perform code review: Failed to get file changes: Directory /tmp/plain is not a git repository"
    = ErrorObject ("Failed to perform code review: " ++ cause).
Proof.
  destruct (performCodeReview_failure
              Scenario.simpleGit Scenario.clock Scenario.emptyDisk
              (mkCodeReviewParams "/tmp/plain" None (Some true)) _ eq_refl)
    as (cause & He & _).
  exists cause. exact He.
Defined.

(* ================================================================== *)
(** * The path utilities *)
(* ================================================================== *)

Section UtilsExtras.

Lemma dropWhile_head {A : Type} (f : A -> bool) (l : list A) (x : A) (t : list A) :
  dropWhile f l = x :: t -> f x = false.
Proof.
  induction l as [|y l IH]; cbn [dropWhile]; [discriminate|].
  destruct (f y) eqn:Hy; [exact IH|].
  intros [= <- _]. exact Hy.
Qed.

Lemma dropWhile_split {A : Type} (f : A -> bool) (l : list A) :
  exists dropped, l = (dropped ++ dropWhile f l)%list /\ Forall (fun x => f x = true) dropped.
Proof.
  induction l as [|y l (d & Hd & Hf)]; cbn [dropWhile].
  - exists []. now split.
  - destruct (f y) eqn:Hy.
    + exists (y :: d). cbn [app]. split; [now f_equal | now constructor].
    + exists []. now split.
Qed.

Lemma list_ascii_of_string_app (a b : string) :
  list_ascii_of_string (a ++ b)
  = (list_ascii_of_string a ++ list_ascii_of_string b)%list.
Proof.
  induction a as [|c a IH]; cbn; [reflexivity | now rewrite IH].
Qed.

(** X17. [validateDirectoryPath] returns the resolved path without the run of
    slashes and backslashes at its end: what it cuts off consists of such
    separators only, and what it returns does not end in one. *)
Theorem validateDirectoryPath_no_trailing_separator (cwd inputPath : string) :
  (exists removed,
      resolve cwd inputPath = validateDirectoryPath cwd inputPath ++ removed
      /\ Forall (fun c => isSeparator c = true) (list_ascii_of_string removed))
  /\ (forall body c,
         validateDirectoryPath cwd inputPath = body ++ String c "" ->
         isSeparator c = false).
Proof.
  unfold validateDirectoryPath, stripTrailingSeparators.
  set (l := list_ascii_of_string (resolve cwd inputPath)).
  destruct (dropWhile_split isSeparator (rev l)) as (d & Hd & Hf).
  split.
  - exists (string_of_list_ascii (rev d)). split.
    + rewrite <- string_of_list_ascii_app, <- rev_app_distr, <- Hd, rev_involutive.
      subst l. now rewrite string_of_list_ascii_of_string.
    + rewrite list_ascii_of_string_of_list_ascii. now apply Forall_rev.
  - intros body c E.
    apply (f_equal list_ascii_of_string) in E.
    rewrite list_ascii_of_string_of_list_ascii, list_ascii_of_string_app in E.
    cbn [list_ascii_of_string] in E.
    apply (f_equal (@rev ascii)) in E.
    rewrite rev_involutive, rev_app_distr in E. cbn [rev app] in E.
    exact (dropWhile_head _ _ _ _ E).
Qed.

Lemma validateDirectoryPath_no_trailing_separator_witness :
  isSeparator "t" = false.
Proof.
  apply (proj2 (validateDirectoryPath_no_trailing_separator "/home/user" "../my-agent//")
               "/home/my-agen" "t"%char).
  reflexivity.
Defined.

End UtilsExtras.
